(** * The dashboard script [static/js/main.js]

    A shallow embedding of the browser script of the starter template:
    the escaping utility [esc], the fetch helper [fetchJSON], the three
    renderers ([renderKV], [renderPreviewTable], [progress]), the endpoint
    loaders and the clear-filter handler, followed by the properties the
    specification states about them.

    Conventions.
    - A JavaScript string is a [string] holding its bytes in (generalised)
      UTF-8; the ASCII characters the script matches on are single bytes
      that never occur inside a longer sequence.
    - A JavaScript exception is the [Throw] outcome of a [Result].
    - The page is a finite map from element ids to the state of the
      element; [document.getElementById] of an id outside the map is [null].
    - What the browser provides and the script only calls ([fetch],
      [JSON.parse], [JSON.stringify], [toLocaleString]) is a variable of
      section [Loaders].
    - [init] starts the three loaders together; a loader or a handler
      first runs on its own, from the request to the last assignment,
      and [init] is taken up further down with the loaders in two
      halves. *)

From Stdlib Require Import ZArith QArith Qminmax Lqa String Ascii List Bool Lia DecimalString.
From stdpp Require Import gmap strings.

Open Scope string_scope.

(* [simpl] may unfold an append whose first string is known. *)
#[local] Arguments String.append !s1 s2 : simpl nomatch.

(** ** Outcomes *)

Inductive Error := TypeError | SyntaxError | NetworkError.

Inductive Result (A : Type) :=
| Ok (a : A)
| Throw (e : Error).
Arguments Ok {A} a.
Arguments Throw {A} e.

#[global] Instance Result_ret : MRet Result := @Ok.
#[global] Instance Result_bind : MBind Result := fun A B f m =>
  match m with
  | Ok a => f a
  | Throw e => Throw e
  end.

(** ** Strings *)

(** The double quote, which a literal cannot hold. *)
Definition quot : string := String "034"%char "".

(** The placeholder dash U+2014. *)
Definition dash : string := "—".

Fixpoint flat_map_chars (f : ascii -> string) (s : string) : string :=
  match s with
  | "" => ""
  | String c s' => f c ++ flat_map_chars f s'
  end.

Fixpoint startsWith (pat s : string) : bool :=
  match pat, s with
  | "", _ => true
  | String _ _, "" => false
  | String a pat', String b s' => Ascii.eqb a b && startsWith pat' s'
  end.

(** [replace_from pat rep skip s]: the scan of [replaceAll] over [s], with
    [skip] characters of the match in progress still to pass over. *)
Fixpoint replace_from (pat rep : string) (skip : nat) (s : string) : string :=
  match s with
  | "" => ""
  | String c s' =>
      match skip with
      | S k => replace_from pat rep k s'
      | O =>
          if startsWith pat (String c s')
          then rep ++ replace_from pat rep (String.length pat - 1) s'
          else String c (replace_from pat rep 0 s')
      end
  end.

(** [s.replaceAll(pat, rep)] for a string pattern: every occurrence, found
    left to right without overlap, is replaced.  The replacement is
    inserted as it is: none of the script's replacement texts holds a [$].
    An empty pattern matches before every character and at the end. *)
Definition replaceAll (pat rep s : string) : string :=
  match pat with
  | "" => rep ++ flat_map_chars (fun c => String c rep) s
  | _ => replace_from pat rep 0 s
  end.

(** ** Numbers

    The script performs no arithmetic: it compares numbers ([Math.min],
    [Math.max]) and prints them.  A finite Number is therefore kept as the
    decimal [(-1)^neg * s * 10^e], which is how [Number::toString] prints
    it (the shortest decimal that reads back as the same double), and
    which orders as the doubles do. *)

Inductive JsNum :=
| NaN
| Infinity (neg : bool)
| Dec (neg : bool) (s : N) (e : Z).

Definition num_of_Z (z : Z) : JsNum := Dec (z <? 0)%Z (Z.abs_N z) 0.

Definition digits (n : N) : string := NilZero.string_of_uint (N.to_uint n).

Fixpoint strip_zeros (s : string) : string :=
  match s with
  | "" => ""
  | String c r =>
      match strip_zeros r with
      | "" => if Ascii.eqb c "0" then "" else String c ""
      | r' => String c r'
      end
  end.

Fixpoint zeros (n : nat) : string :=
  match n with
  | O => ""
  | S k => String "0" (zeros k)
  end.

Fixpoint str_take (n : nat) (s : string) : string :=
  match n, s with
  | S k, String c r => String c (str_take k r)
  | _, _ => ""
  end.

Fixpoint str_drop (n : nat) (s : string) : string :=
  match n, s with
  | S k, String _ r => str_drop k r
  | _, _ => s
  end.

(** [Number::toString(x)] in radix 10: with [k] significant digits [ds]
    and [n] the position of the decimal point, plain digits when
    [k <= n <= 21], a point inside the digits when [0 < n <= 21], leading
    [0.00] when [-6 < n <= 0], the exponent form otherwise. *)
Definition Number_toString (x : JsNum) : string :=
  match x with
  | NaN => "NaN"
  | Infinity neg => (if neg then "-" else "") ++ "Infinity"
  | Dec neg s e =>
      if (s =? 0)%N then "0" else
      let all := digits s in
      let ds := strip_zeros all in
      let k := Z.of_nat (String.length ds) in
      let n := (Z.of_nat (String.length all) + e)%Z in
      (if neg then "-" else "") ++
      (if (k <=? n)%Z && (n <=? 21)%Z then ds ++ zeros (Z.to_nat (n - k))
       else if (0 <? n)%Z && (n <=? 21)%Z
            then str_take (Z.to_nat n) ds ++ "." ++ str_drop (Z.to_nat n) ds
       else if (-6 <? n)%Z && (n <=? 0)%Z then "0." ++ zeros (Z.to_nat (- n)) ++ ds
       else
         let x := (n - 1)%Z in
         let ex := (if (x <? 0)%Z then "-" else "+") ++ digits (Z.abs_N x) in
         match ds with
         | String d "" => String d ("e" ++ ex)
         | String d rest => String d ("." ++ rest ++ "e" ++ ex)
         | "" => ""
         end)
  end.

(** The value of a finite Number. *)
Definition num_value (neg : bool) (s : N) (e : Z) : Q :=
  (if neg then -1 else 1) * inject_Z (Z.of_N s) * Qpower (10 # 1) e.

(** [a < b] on Numbers; false as soon as one side is NaN. *)
Definition num_ltb (a b : JsNum) : bool :=
  match a, b with
  | NaN, _ | _, NaN => false
  | Infinity na, Infinity nb => na && negb nb
  | Infinity na, Dec _ _ _ => na
  | Dec _ _ _, Infinity nb => negb nb
  | Dec na sa ea, Dec nb sb eb =>
      match Qcompare (num_value na sa ea) (num_value nb sb eb) with
      | Lt => true
      | _ => false
      end
  end.

Definition is_zero (neg : bool) (x : JsNum) : bool :=
  match x with
  | Dec n s _ => Bool.eqb n neg && (s =? 0)%N
  | _ => false
  end.

(** [Math.min(...)]: NaN as soon as an argument is NaN; otherwise the
    running lowest, starting from +Infinity, with -0 below +0. *)
Fixpoint Math_min_from (lowest : JsNum) (args : list JsNum) : JsNum :=
  match args with
  | [] => lowest
  | NaN :: _ => NaN
  | x :: rest =>
      Math_min_from
        (if is_zero true x && is_zero false lowest then x
         else if num_ltb x lowest then x else lowest) rest
  end.
Definition Math_min (args : list JsNum) : JsNum := Math_min_from (Infinity false) args.

(** [Math.max(...)], the mirror image. *)
Fixpoint Math_max_from (highest : JsNum) (args : list JsNum) : JsNum :=
  match args with
  | [] => highest
  | NaN :: _ => NaN
  | x :: rest =>
      Math_max_from
        (if is_zero false x && is_zero true highest then x
         else if num_ltb highest x then x else highest) rest
  end.
Definition Math_max (args : list JsNum) : JsNum := Math_max_from (Infinity true) args.

(** ** Values *)

(** The values the script handles: what [JSON.parse] yields, [undefined],
    and the two kinds of object a property read on a parsed object can
    reach through its prototype: [Object.prototype] itself (read as
    [__proto__]) and its built-in methods.  An object lists its own
    properties in the order [Object.keys] reports them. *)
#[warnings="-register-all"]
Inductive JsVal :=
| JUndefined
| JNull
| JBool (b : bool)
| JNum (n : JsNum)
| JStr (s : string)
| JArr (items : list JsVal)
| JObj (props : list (string * JsVal))
| JObjectPrototype
| JNative (name : string).

Fixpoint own (k : string) (props : list (string * JsVal)) : option JsVal :=
  match props with
  | [] => None
  | (k', v) :: rest => if String.eqb k' k then Some v else own k rest
  end.

(** [ToString(v)], as [String(v)], a template literal and a DOM string
    attribute apply it.  An array joins its elements with commas, [null]
    and [undefined] elements printing as nothing.  A parsed object prints
    through [Object.prototype.toString], unless it has an own property
    [toString]: that one is not callable, [valueOf] then yields the object
    itself, and the conversion ends in a TypeError.  A built-in function
    prints as V8 and JavaScriptCore print it. *)
Fixpoint ToString (v : JsVal) : Result string :=
  match v with
  | JUndefined => Ok "undefined"
  | JNull => Ok "null"
  | JBool b => Ok (if b then "true" else "false")
  | JNum n => Ok (Number_toString n)
  | JStr s => Ok s
  | JArr items =>
      (fix join (xs : list JsVal) : Result string :=
         match xs with
         | [] => Ok ""
         | x :: rest =>
             let one := match x with
                        | JUndefined | JNull => Ok ""
                        | _ => ToString x
                        end in
             match one, rest with
             | Throw e, _ => Throw e
             | Ok t, [] => Ok t
             | Ok t, _ :: _ =>
                 match join rest with
                 | Ok r => Ok (t ++ "," ++ r)
                 | Throw e => Throw e
                 end
             end
         end) items
  | JObj props =>
      match own "toString" props with
      | Some _ => Throw TypeError
      | None => Ok "[object Object]"
      end
  | JObjectPrototype => Ok "[object Object]"
  | JNative name => Ok ("function " ++ name ++ "() { [native code] }")
  end.

(** ** [esc] (lines 4-9) *)

Definition esc (s : JsVal) : Result string :=
  t ← ToString s;
  Ok (replaceAll "'" "&#039;"
       (replaceAll quot "&quot;"
         (replaceAll ">" "&gt;"
           (replaceAll "<" "&lt;"
             (replaceAll "&" "&amp;" t))))).

(** ** Characters of a string *)

Definition byte (n : N) : ascii := ascii_of_N n.

(** A continuation byte, [10xxxxxx]. *)
Definition is_continuation (c : ascii) : bool := (N_of_ascii c / 64 =? 2)%N.

(** The encoding of a code point; a lone surrogate takes three bytes like
    any other code point below U+10000. *)
Definition encode (cp : N) : string :=
  if (cp <? 128)%N then String (byte cp) ""
  else if (cp <? 2048)%N then
    String (byte (192 + cp / 64)) (String (byte (128 + cp mod 64)) "")
  else if (cp <? 65536)%N then
    String (byte (224 + cp / 4096))
      (String (byte (128 + (cp / 64) mod 64)) (String (byte (128 + cp mod 64)) ""))
  else
    String (byte (240 + cp / 262144))
      (String (byte (128 + (cp / 4096) mod 64))
        (String (byte (128 + (cp / 64) mod 64)) (String (byte (128 + cp mod 64)) ""))).

(** [split_chars s]: the continuation bytes [s] starts with, then its
    characters, each a lead byte with the continuation bytes after it. *)
Fixpoint split_chars (s : string) : string * list string :=
  match s with
  | "" => ("", [])
  | String c r =>
      let '(cont, cs) := split_chars r in
      if is_continuation c then (String c cont, cs) else ("", String c cont :: cs)
  end.

Definition utf8_chars (s : string) : list string :=
  match split_chars s with
  | ("", cs) => cs
  | (cont, cs) => cont :: cs
  end.

(** The code point a sequence of up to four bytes encodes. *)
Definition code_point (c : string) : N :=
  match c with
  | String a "" => N_of_ascii a
  | String a (String b "") => (N_of_ascii a mod 32) * 64 + N_of_ascii b mod 64
  | String a (String b (String d "")) =>
      (N_of_ascii a mod 16) * 4096 + (N_of_ascii b mod 64) * 64 + N_of_ascii d mod 64
  | String a (String b (String d (String e _))) =>
      (N_of_ascii a mod 8) * 262144 + (N_of_ascii b mod 64) * 4096
      + (N_of_ascii d mod 64) * 64 + N_of_ascii e mod 64
  | "" => 0
  end%N.

(** The UTF-16 code units of a character: two surrogates above U+FFFF. *)
Definition code_units (c : string) : list string :=
  let cp := code_point c in
  if (cp <? 65536)%N then [c]
  else [encode (55296 + (cp - 65536) / 1024); encode (56320 + (cp - 65536) mod 1024)]%N.

(** The code units of a string, the elements [s.length] counts and
    [s[i]] reads. *)
Definition units (s : string) : list string := flat_map code_units (utf8_chars s).

(** WhiteSpace and LineTerminator code points, what [trim] strips. *)
Definition white_space : list N :=
  [9; 10; 11; 12; 13; 32; 160; 5760; 8192; 8193; 8194; 8195; 8196; 8197; 8198;
   8199; 8200; 8201; 8202; 8232; 8233; 8239; 8287; 12288; 65279]%N.

Definition is_white_space (c : string) : bool :=
  existsb (N.eqb (code_point c)) white_space
  && String.eqb c (encode (code_point c)).

Fixpoint drop_while {A} (p : A -> bool) (l : list A) : list A :=
  match l with
  | [] => []
  | x :: r => if p x then drop_while p r else l
  end.

(** [s.trim()] *)
Definition trim (s : string) : string :=
  String.concat ""
    (rev (drop_while is_white_space (rev (drop_while is_white_space (utf8_chars s))))).

(** ** Reading properties *)

(** The canonical numeric string of [i], as array indices are spelled. *)
Definition index_key (i : nat) : string := digits (N.of_nat i).

Fixpoint find_index {A} (k : string) (i : nat) (l : list A) : option A :=
  match l with
  | [] => None
  | x :: r => if String.eqb k (index_key i) then Some x else find_index k (S i) r
  end.

(** The methods every object inherits from [Object.prototype]. *)
Definition Object_prototype_methods : list string :=
  ["constructor"; "__defineGetter__"; "__defineSetter__"; "hasOwnProperty";
   "__lookupGetter__"; "__lookupSetter__"; "isPrototypeOf";
   "propertyIsEnumerable"; "toString"; "valueOf"; "toLocaleString"].

(** What a property read finds on [Object.prototype] once the object has
    no own property of that name. *)
Definition inherited (k : string) : JsVal :=
  if String.eqb k "__proto__" then JObjectPrototype
  else if String.eqb k "constructor" then JNative "Object"
  else if existsb (String.eqb k) Object_prototype_methods then JNative k
  else JUndefined.

(** [v[k]] for [v] neither [null] nor [undefined].  An object answers with
    its own property, else with what it inherits.  Arrays, strings,
    numbers and booleans answer with their own properties ([length] and
    the indices): the methods they inherit are left out, the script reads
    none of them by a fixed name, and what is stated about table cells is
    stated for rows that are objects. *)
Definition get (v : JsVal) (k : string) : JsVal :=
  match v with
  | JObj props =>
      match own k props with
      | Some x => x
      | None => inherited k
      end
  | JArr items =>
      if String.eqb k "length" then JNum (num_of_Z (Z.of_nat (length items)))
      else default JUndefined (find_index k 0 items)
  | JStr s =>
      if String.eqb k "length" then JNum (num_of_Z (Z.of_nat (length (units s))))
      else default JUndefined (JStr <$> find_index k 0 (units s))
  | _ => JUndefined
  end.

(** [v?.k] *)
Definition opt_get (v : JsVal) (k : string) : JsVal :=
  match v with
  | JUndefined | JNull => JUndefined
  | _ => get v k
  end.

(** [Object.keys(v)]: the own enumerable keys; a TypeError on [null] and
    [undefined]. *)
Definition Object_keys (v : JsVal) : Result (list string) :=
  match v with
  | JUndefined | JNull => Throw TypeError
  | JObj props => Ok (map fst props)
  | JArr items => Ok (map index_key (seq 0 (length items)))
  | JStr s => Ok (map index_key (seq 0 (length (units s))))
  | _ => Ok []
  end.

(** [Boolean(v)] *)
Definition ToBoolean (v : JsVal) : bool :=
  match v with
  | JUndefined | JNull | JBool false | JNum NaN | JStr "" => false
  | JNum (Dec _ s _) => negb (s =? 0)%N
  | _ => true
  end.

(** [a || b] and [a ?? b] *)
Definition or_else (a b : JsVal) : JsVal := if ToBoolean a then a else b.
Definition coalesce (a b : JsVal) : JsVal :=
  match a with
  | JUndefined | JNull => b
  | _ => a
  end.

Infix "||>" := or_else (at level 51, left associativity).
Infix "??" := coalesce (at level 51, left associativity).

(** [items.join(sep)] *)
Fixpoint Array_join (sep : string) (items : list JsVal) : Result string :=
  match items with
  | [] => Ok ""
  | x :: rest =>
      t ← match x with
          | JUndefined | JNull => Ok ""
          | _ => ToString x
          end;
      match rest with
      | [] => Ok t
      | _ => r ← Array_join sep rest; Ok (t ++ sep ++ r)
      end
  end.

(** [v.k]: a TypeError on [null] and [undefined]. *)
Definition get_prop (v : JsVal) (k : string) : Result JsVal :=
  match v with
  | JUndefined | JNull => Throw TypeError
  | _ => Ok (get v k)
  end.

(** ** The page and the effects of the script *)

(** What an element shows: the text last assigned to [textContent], or
    the markup last assigned to [innerHTML].  Each element is taken to be
    of the kind the script uses it as, and apart from the others. *)
Inductive Content :=
| Text (s : string)
| Markup (html : string).

Record Element := {
  el_value : string;      (* [value] of a form control *)
  el_content : Content;
  el_width : string       (* the string last assigned to [style.width] *)
}.

Inductive Handler := OnLoadEmails | OnClearFilters | OnLoadPing.

(** A pending [setTimeout(() => progress($(bar), 0), delay)]. *)
Record Timer := { timer_delay : Z; timer_bar : string }.

Record World := {
  page : gmap string Element;
  requests : list string;               (* the URLs fetched, oldest first *)
  console : list (string * JsVal);
  timers : list Timer;
  listeners : list (string * Handler)   (* click listeners by element id *)
}.

Definition with_page (f : gmap string Element -> gmap string Element) (w : World) : World :=
  {| page := f (page w); requests := requests w; console := console w;
     timers := timers w; listeners := listeners w |}.

(** A computation of the script: it changes the world and returns or throws. *)
Definition M (A : Type) : Type := World -> World * Result A.

#[global] Instance M_ret : MRet M := fun A a w => (w, Ok a).
#[global] Instance M_bind : MBind M := fun A B f m w =>
  match m w with
  | (w', Ok a) => f a w'
  | (w', Throw e) => (w', Throw e)
  end.

Definition lift {A} (r : Result A) : M A := fun w => (w, r).

(** [$(id)]: the element, or [None] for [null]. *)
Definition getById (id : string) : M (option string) := fun w =>
  (w, Ok match page w !! id with
         | Some _ => Some id
         | None => None
         end).

(** An assignment to a property of [el]: a TypeError when [el] is [null]. *)
Definition update (el : option string) (f : Element -> Element) : M unit := fun w =>
  match el with
  | None => (w, Throw TypeError)
  | Some id => (with_page (alter f id) w, Ok tt)
  end.

Definition with_value (s : string) (e : Element) : Element :=
  {| el_value := s; el_content := el_content e; el_width := el_width e |}.

Definition with_content (c : Content) (e : Element) : Element :=
  {| el_value := el_value e; el_content := c; el_width := el_width e |}.

Definition with_width (s : string) (e : Element) : Element :=
  {| el_value := el_value e; el_content := el_content e; el_width := s |}.

Definition set_value (el : option string) (s : string) : M unit := update el (with_value s).

Definition set_content (el : option string) (c : Content) : M unit :=
  update el (with_content c).

(** [el.style.width = s] *)
Definition set_width (el : option string) (s : string) : M unit := update el (with_width s).

(** [el.textContent = v]: [null] and [undefined] clear the text, any other
    value is converted by [ToString]. *)
Definition set_textContent (el : option string) (v : JsVal) : M unit :=
  s ← lift match v with
           | JUndefined | JNull => Ok ""
           | _ => ToString v
           end;
  set_content el (Text s).

(** [el.innerHTML = html] *)
Definition set_innerHTML (el : option string) (html : string) : M unit :=
  set_content el (Markup html).

(** [el.value] *)
Definition get_value (el : option string) : M string := fun w =>
  match el with
  | None => (w, Throw TypeError)
  | Some id => (w, Ok (default "" (el_value <$> page w !! id)))
  end.

Definition log_console (tag : string) (v : JsVal) (w : World) : World :=
  {| page := page w; requests := requests w; console := console w ++ [(tag, v)];
     timers := timers w; listeners := listeners w |}.

Definition log_request (url : string) (w : World) : World :=
  {| page := page w; requests := requests w ++ [url]; console := console w;
     timers := timers w; listeners := listeners w |}.

(** [console.log(tag, v)] *)
Definition console_log (tag : string) (v : JsVal) : M unit := fun w =>
  (log_console tag v w, Ok tt).

Definition setTimeout (t : Timer) : M unit := fun w =>
  ({| page := page w; requests := requests w; console := console w;
      timers := timers w ++ [t]; listeners := listeners w |}, Ok tt).

(** [$(id)?.addEventListener("click", h)] *)
Definition addEventListener (el : option string) (h : Handler) : M unit := fun w =>
  match el with
  | None => (w, Ok tt)
  | Some id =>
      ({| page := page w; requests := requests w; console := console w;
          timers := timers w; listeners := listeners w ++ [(id, h)] |}, Ok tt)
  end.

(** ** [renderKV] (lines 21-30) *)

Definition renderKV (user : JsVal) : M unit :=
  let userName :=
    opt_get user "userName"
    ||> opt_get (opt_get (opt_get user "emails") "0") "value"
    ||> JStr dash in
  display ← lift
    (if ToBoolean (opt_get user "displayName") then Ok (opt_get user "displayName")
     else
       joined ← Array_join " "
         (List.filter ToBoolean
            [opt_get (opt_get user "name") "givenName";
             opt_get (opt_get user "name") "familyName"]);
       Ok (JStr joined ||> JStr dash));
  active ← lift
    (match opt_get user "active" with
     | JBool _ => a ← get_prop user "active"; ToString a
     | _ => Ok dash
     end);
  meUser ← getById "meUser"; set_textContent meUser userName;;
  meDisplay ← getById "meDisplay"; set_textContent meDisplay display;;
  meActive ← getById "meActive"; set_textContent meActive (JStr active).

(** ** [renderPreviewTable] (lines 32-51) *)

(** [rows.slice(0, fin)] for an integer [fin]: a negative [fin] counts
    from the end. *)
Definition slice0 {A} (fin : Z) (rows : list A) : list A :=
  let len := Z.of_nat (length rows) in
  let final := if (fin <? 0)%Z then Z.max (len + fin) 0 else Z.min fin len in
  take (Z.to_nat final) rows.

(** [set.add(key)] on a [Set], kept as the list of its members in
    insertion order. *)
Definition Set_add (set : list string) (key : string) : list string :=
  if existsb (String.eqb key) set then set else set ++ [key].

(** [sample.reduce((set, row) => { Object.keys(row).forEach((key) =>
    set.add(key)); return set; }, set)] *)
Fixpoint reduce_keys (set : list string) (sample : list JsVal) : Result (list string) :=
  match sample with
  | [] => Ok set
  | row :: rest => keys ← Object_keys row; reduce_keys (fold_left Set_add keys set) rest
  end.

Definition th (c : string) : Result string :=
  e ← esc (JStr c); Ok ("<th>" ++ e ++ "</th>").

Definition td (row : JsVal) (c : string) : Result string :=
  v ← get_prop row c; e ← esc (v ?? JStr dash); Ok ("<td>" ++ e ++ "</td>").

Definition tr (cols : list string) (row : JsVal) : Result string :=
  tds ← mapM (td row) cols; Ok ("<tr>" ++ String.concat "" tds ++ "</tr>").

Definition empty_message : string :=
  "<em class=" ++ quot ++ "empty" ++ quot ++ ">No rows available.</em>".

(** The markup the renderer assigns.  [maxRows] is [None] when the
    argument is left out, otherwise an integer. *)
Definition previewHTML (rows : JsVal) (maxRows : option Z) : Result string :=
  match rows with
  | JArr ((_ :: _) as items) =>
      let sample := slice0 (default 10%Z maxRows) items in
      cols ← reduce_keys [] sample;
      ths ← mapM th cols;
      let thead := "<thead><tr>" ++ String.concat "" ths ++ "</tr></thead>" in
      trs ← mapM (tr cols) sample;
      let tbody := "<tbody>" ++ String.concat "" trs ++ "</tbody>" in
      Ok ("<table>" ++ thead ++ tbody ++ "</table>")
  | _ => Ok empty_message
  end.

Definition renderPreviewTable (el : option string) (rows : JsVal) (maxRows : option Z)
  : M unit :=
  html ← lift (previewHTML rows maxRows);
  set_innerHTML el html.

(** ** [progress] (lines 53-57) *)

Definition progress (elBar : option string) (pct : JsNum) : M unit :=
  match elBar with
  | None => mret tt
  | Some _ =>
      let next := Math_max [num_of_Z 0; Math_min [num_of_Z 100; pct]] in
      set_width elBar (Number_toString next ++ "%")
  end.

(** ** [URLSearchParams] *)

Definition URLSearchParams := list (string * string).

(** [qs.set(name, value)]: the first pair of that name takes the value and
    the later ones go; without one, the pair is appended. *)
Fixpoint params_set (name value : string) (qs : URLSearchParams) : URLSearchParams :=
  match qs with
  | [] => [(name, value)]
  | (n, v) :: rest =>
      if String.eqb n name
      then (name, value) :: List.filter (fun p => negb (String.eqb (fst p) name)) rest
      else (n, v) :: params_set name value rest
  end.

Definition hex_digit (n : N) : ascii :=
  if (n <? 10)%N then byte (48 + n) else byte (55 + n).

(** A byte under the [application/x-www-form-urlencoded] serializer:
    letters, digits and [*-._] stay, a space becomes [+], every other
    byte its [%XX] escape. *)
Definition percent_encode (b : ascii) : string :=
  let n := N_of_ascii b in
  if ((48 <=? n) && (n <=? 57) || (65 <=? n) && (n <=? 90) || (97 <=? n) && (n <=? 122)
      || (n =? 42) || (n =? 45) || (n =? 46) || (n =? 95))%N
  then String b ""
  else if (n =? 32)%N then "+"
  else String "%" (String (hex_digit (n / 16)) (String (hex_digit (n mod 16)) "")).

(** A lone surrogate becomes U+FFFD when a string is sent as text. *)
Definition scalar_value (c : string) : string :=
  let cp := code_point c in
  if ((55296 <=? cp) && (cp <=? 57343))%N then encode 65533 else c.

Definition urlencode (s : string) : string :=
  flat_map_chars percent_encode (String.concat "" (map scalar_value (utf8_chars s))).

(** [qs.toString()] *)
Definition URLSearchParams_toString (qs : URLSearchParams) : string :=
  String.concat "&" (map (fun p => urlencode (fst p) ++ "=" ++ urlencode (snd p)) qs).

Definition non_empty (s : string) : bool := negb (String.eqb s "").

(** ** [loadEmails], up to the request (lines 77-91) *)

(** Lines 82-88: the query parameters for the four filter values. *)
Definition emailQuery (subject fromEmail isRead isStarred : string) : URLSearchParams :=
  let qs := [] in
  let qs := if non_empty subject then params_set "subject" subject qs else qs in
  let qs := if non_empty fromEmail then params_set "from_email" fromEmail qs else qs in
  let qs := if non_empty isRead then params_set "is_read" isRead qs else qs in
  let qs := if non_empty isStarred then params_set "is_starred" isStarred qs else qs in
  params_set "limit" "100" qs.

(** Line 91 *)
Definition emailsUrl (qs : URLSearchParams) : string :=
  "/api/emails" ++
  (if non_empty (URLSearchParams_toString qs) then "?" ++ URLSearchParams_toString qs else "").

(** Lines 78-91: read the four controls, build the query, start the
    progress bar; the result is the URL to fetch. *)
Definition emailsRequest : M string :=
  subjectInput ← getById "subjectInput"; v ← get_value subjectInput;
  let subject := trim v in
  fromEmailInput ← getById "fromEmailInput"; v ← get_value fromEmailInput;
  let fromEmail := trim v in
  isReadSelect ← getById "isReadSelect"; isRead ← get_value isReadSelect;
  isStarredSelect ← getById "isStarredSelect"; isStarred ← get_value isStarredSelect;
  let qs := emailQuery subject fromEmail isRead isStarred in
  emailBar ← getById "emailBar"; progress emailBar (num_of_Z 18);;
  mret (emailsUrl qs).

(** ** The clear-filter handler (lines 109-119) *)

Definition clearFilters : M unit :=
  subjectInput ← getById "subjectInput"; set_value subjectInput "";;
  fromEmailInput ← getById "fromEmailInput"; set_value fromEmailInput "";;
  isReadSelect ← getById "isReadSelect"; set_value isReadSelect "";;
  isStarredSelect ← getById "isStarredSelect"; set_value isStarredSelect "";;
  emailTable ← getById "emailTable"; set_innerHTML emailTable dash;;
  emailRaw ← getById "emailRaw"; set_textContent emailRaw (JStr dash);;
  emailCount ← getById "emailCount"; set_textContent emailCount (JStr ("rows: " ++ dash));;
  emailTiming ← getById "emailTiming"; set_textContent emailTiming (JStr dash);;
  emailBar ← getById "emailBar"; progress emailBar (num_of_Z 0).

(** ** [wireEvents] (lines 106-122) *)

Definition wireEvents : M unit :=
  runEmails ← getById "runEmails"; addEventListener runEmails OnLoadEmails;;
  clear ← getById "clearFilters"; addEventListener clear OnClearFilters;;
  refreshPing ← getById "refreshPing"; addEventListener refreshPing OnLoadPing.

(** A timer set by a loader fires: [progress($(bar), 0)]. *)
Definition fire (t : Timer) : M unit :=
  bar ← getById (timer_bar t); progress bar (num_of_Z 0).

(** ** The loaders *)

Record Response := { status : N; body : string }.

Section Loaders.

(** [fetch(url, { credentials: "include" })] followed by [r.text()]:
    the response of the backend, [None] when the request fails. *)
Variable fetch : string -> option Response.
(** [JSON.parse(txt)], throwing on a text that is not JSON. *)
Variable JSON_parse : string -> Result JsVal.
(** [JSON.stringify(v, null, 2)], [None] for [undefined]. *)
Variable JSON_stringify : JsVal -> option string.
(** [n.toLocaleString()] *)
Variable toLocaleString : JsNum -> string.

Definition request (url : string) : M Response := fun w =>
  (log_request url w,
   match fetch url with
   | Some r => Ok r
   | None => Throw NetworkError
   end).

(** [fetchJSON] (lines 11-19) *)
Definition fetchJSON (url : string) : M JsVal :=
  r ← request url;
  let txt := body r in
  match JSON_parse txt with
  | Ok v => mret v
  | Throw _ =>
      mret (JObj [("status", JNum (num_of_Z (Z.of_N (status r)))); ("text", JStr txt)])
  end.

Definition fmt (n : JsVal) : JsVal :=
  match n with
  | JNum x => JStr (toLocaleString x)
  | _ => n
  end.

Definition stringify (data : JsVal) : JsVal :=
  match JSON_stringify data with
  | Some s => JStr s
  | None => JUndefined
  end.

(** [loadUser] (lines 59-65) *)
Definition loadUser : M unit :=
  data ← fetchJSON "/api/me";
  console_log "[me]" data;;
  meMode ← getById "meMode"; set_textContent meMode (opt_get data "mode" ?? JStr dash);;
  meRaw ← getById "meRaw"; set_textContent meRaw (stringify data);;
  renderKV (opt_get data "current_user").

(** [loadPing] (lines 67-75) *)
Definition loadPing : M unit :=
  pingBar ← getById "pingBar"; progress pingBar (num_of_Z 12);;
  data ← fetchJSON "/api/sql/ping";
  console_log "[ping]" data;;
  pingOk ← getById "pingOk";
  set_textContent pingOk (JStr (if ToBoolean (opt_get data "ok") then "OK" else "Not OK"));;
  pingRaw ← getById "pingRaw"; set_textContent pingRaw (stringify data);;
  pingBar ← getById "pingBar"; progress pingBar (num_of_Z 100);;
  setTimeout {| timer_delay := 400; timer_bar := "pingBar" |}.

(** Lines 93-103 of [loadEmails]: what is shown once the data is there. *)
Definition showEmails (data : JsVal) : M unit :=
  console_log "[emails]" data;;
  emailRaw ← getById "emailRaw"; set_textContent emailRaw (stringify data);;
  emailCount ← getById "emailCount";
  count ← lift (ToString (fmt (opt_get (opt_get data "rows") "length" ?? JNum (num_of_Z 0))));
  set_textContent emailCount (JStr ("rows: " ++ count));;
  let t := opt_get data "timing" ||> JObj [] in
  emailTiming ← getById "emailTiming";
  line ← lift
    (q ← get_prop t "query_ms"; q ← ToString (q ?? JStr dash);
     s ← get_prop t "serialize_ms"; s ← ToString (s ?? JStr dash);
     a ← get_prop t "total_ms"; a ← ToString (a ?? JStr dash);
     Ok ("query " ++ q ++ " ms · json " ++ s ++ " ms · total " ++ a ++ " ms"));
  set_textContent emailTiming (JStr line);;
  emailTable ← getById "emailTable";
  renderPreviewTable emailTable (opt_get data "rows" ||> JArr []) None;;
  emailBar ← getById "emailBar"; progress emailBar (num_of_Z 100);;
  setTimeout {| timer_delay := 400; timer_bar := "emailBar" |}.

(** [loadEmails] (lines 77-104) *)
Definition loadEmails : M unit :=
  url ← emailsRequest;
  data ← fetchJSON url;
  showEmails data.

(** What a click listener runs. *)
Definition handler (h : Handler) : M unit :=
  match h with
  | OnLoadEmails => loadEmails
  | OnClearFilters => clearFilters
  | OnLoadPing => loadPing
  end.

End Loaders.

(** ** A reference browser

    Concrete stand-ins for what the browser provides, to run the loaders
    on examples.  The statements about the loaders hold for any [fetch],
    [JSON.parse] and [JSON.stringify]; none relies on this module. *)

Module Reference.

Definition is_ws (c : ascii) : bool :=
  let n := N_of_ascii c in ((n =? 32) || (n =? 9) || (n =? 10) || (n =? 13))%N.

Fixpoint skip_ws (s : string) : string :=
  match s with
  | String c r => if is_ws c then skip_ws r else s
  | "" => ""
  end.

Definition digit_val (c : ascii) : option N :=
  let n := N_of_ascii c in
  if ((48 <=? n) && (n <=? 57))%N then Some (n - 48)%N else None.

Definition hex_val (c : ascii) : option N :=
  let n := N_of_ascii c in
  if ((48 <=? n) && (n <=? 57))%N then Some (n - 48)%N
  else if ((65 <=? n) && (n <=? 70))%N then Some (n - 55)%N
  else if ((97 <=? n) && (n <=? 102))%N then Some (n - 87)%N
  else None.

(** The digits [s] starts with: their value, their number, the rest. *)
Fixpoint read_digits (acc : N) (count : nat) (s : string) : N * nat * string :=
  match s with
  | String c r =>
      match digit_val c with
      | Some d => read_digits (10 * acc + d) (S count) r
      | None => (acc, count, s)
      end
  | "" => (acc, count, s)
  end.

(** A JSON number: [-? int frac? exp?], kept as the decimal it spells. *)
Definition parse_number (s : string) : option (JsNum * string) :=
  let '(neg, s1) := match s with
                    | String "-" r => (true, r)
                    | _ => (false, s)
                    end in
  let '(int, n, s2) := read_digits 0 0 s1 in
  if (n =? 0)%nat || ((1 <? n)%nat && startsWith "0" s1) then None else
  '(mant, fracs, s3) ←
    match s2 with
    | String "." r =>
        let '(m, k, r') := read_digits int 0 r in
        if (k =? 0)%nat then None else Some (m, k, r')
    | _ => Some (int, 0%nat, s2)
    end;
  '(ex, s4) ←
    match s3 with
    | String c r =>
        if Ascii.eqb c "e" || Ascii.eqb c "E" then
          let '(eneg, r1) := match r with
                             | String "-" t => (true, t)
                             | String "+" t => (false, t)
                             | _ => (false, r)
                             end in
          let '(x, k, r2) := read_digits 0 0 r1 in
          if (k =? 0)%nat then None
          else Some (if eneg then (- Z.of_N x)%Z else Z.of_N x, r2)
        else Some (0%Z, s3)
    | "" => Some (0%Z, s3)
    end;
  Some (Dec neg mant (ex - Z.of_nat fracs), s4).

Definition is_high (c : string) : bool :=
  let cp := code_point c in ((55296 <=? cp) && (cp <=? 56319))%N.
Definition is_low (c : string) : bool :=
  let cp := code_point c in ((56320 <=? cp) && (cp <=? 57343))%N.

(** Two escaped surrogates in a row are one character. *)
Fixpoint pair_surrogates (cs : list string) : list string :=
  match cs with
  | a :: ((b :: r) as tl) =>
      if is_high a && is_low b
      then encode (65536 + (code_point a - 55296) * 1024 + (code_point b - 56320))%N
           :: pair_surrogates r
      else a :: pair_surrogates tl
  | _ => cs
  end.

(** The characters of a string literal after its opening quote. *)
Fixpoint parse_chars (s : string) : option (string * string) :=
  match s with
  | "" => None
  | String c r =>
      if Ascii.eqb c "034" then Some ("", r)
      else if (N_of_ascii c <? 32)%N then None
      else if Ascii.eqb c "\" then
        match r with
        | String e r' =>
            let simple (b : N) := '(t, rest) ← parse_chars r'; Some (String (byte b) t, rest) in
            if Ascii.eqb e "034" then simple 34%N
            else if Ascii.eqb e "\" then simple 92%N
            else if Ascii.eqb e "/" then simple 47%N
            else if Ascii.eqb e "b" then simple 8%N
            else if Ascii.eqb e "f" then simple 12%N
            else if Ascii.eqb e "n" then simple 10%N
            else if Ascii.eqb e "r" then simple 13%N
            else if Ascii.eqb e "t" then simple 9%N
            else if Ascii.eqb e "u" then
              match r' with
              | String h1 (String h2 (String h3 (String h4 r''))) =>
                  a ← hex_val h1; b ← hex_val h2; c ← hex_val h3; d ← hex_val h4;
                  '(t, rest) ← parse_chars r'';
                  Some (encode (a * 4096 + b * 256 + c * 16 + d)%N ++ t, rest)
              | _ => None
              end
            else None
        | "" => None
        end
      else '(t, rest) ← parse_chars r; Some (String c t, rest)
  end.

Definition parse_string (s : string) : option (string * string) :=
  '(t, rest) ← parse_chars s;
  Some (String.concat "" (pair_surrogates (utf8_chars t)), rest).

(** A canonical array index: it sorts before the other keys of an object. *)
Definition index_of (k : string) : option N :=
  let '(n, count, rest) := read_digits 0 0 k in
  if String.eqb rest "" && String.eqb k (digits n) && (n <? 4294967295)%N
  then Some n else None.

Fixpoint insert_key (k : string) (v : JsVal) (props : list (string * JsVal))
  : list (string * JsVal) :=
  match props with
  | [] => [(k, v)]
  | (k', v') :: rest =>
      match index_of k, index_of k' with
      | Some i, Some j => if (i <? j)%N then (k, v) :: props
                          else (k', v') :: insert_key k v rest
      | Some _, None => (k, v) :: props
      | None, _ => (k', v') :: insert_key k v rest
      end
  end.

Fixpoint replace_key (k : string) (v : JsVal) (props : list (string * JsVal))
  : list (string * JsVal) :=
  match props with
  | [] => []
  | (k', v') :: rest =>
      if String.eqb k' k then (k, v) :: rest else (k', v') :: replace_key k v rest
  end.

(** The object gains, or overwrites, the property [k]. *)
Definition define (k : string) (v : JsVal) (props : list (string * JsVal))
  : list (string * JsVal) :=
  match own k props with
  | Some _ => replace_key k v props
  | None => insert_key k v props
  end.

(** A value, then (for the two lists) the elements or members that
    follow up to the closing bracket. *)
Fixpoint parse_value (fuel : nat) (s : string) : option (JsVal * string) :=
  match fuel with
  | O => None
  | S fuel =>
      let s := skip_ws s in
      if startsWith "null" s then Some (JNull, str_drop 4 s)
      else if startsWith "true" s then Some (JBool true, str_drop 4 s)
      else if startsWith "false" s then Some (JBool false, str_drop 5 s)
      else
        match s with
        | String c r =>
            if Ascii.eqb c "034" then '(t, rest) ← parse_string r; Some (JStr t, rest)
            else if Ascii.eqb c "[" then
              match skip_ws r with
              | String "]" rest => Some (JArr [], rest)
              | _ => '(items, rest) ← parse_elements fuel r; Some (JArr items, rest)
              end
            else if Ascii.eqb c "{" then
              match skip_ws r with
              | String "}" rest => Some (JObj [], rest)
              | _ => '(props, rest) ← parse_members fuel [] r; Some (JObj props, rest)
              end
            else '(n, rest) ← parse_number s; Some (JNum n, rest)
        | "" => None
        end
  end
with parse_elements (fuel : nat) (s : string) : option (list JsVal * string) :=
  match fuel with
  | O => None
  | S fuel =>
      '(v, rest) ← parse_value fuel s;
      match skip_ws rest with
      | String "," rest => '(items, rest) ← parse_elements fuel rest; Some (v :: items, rest)
      | String "]" rest => Some ([v], rest)
      | _ => None
      end
  end
with parse_members (fuel : nat) (props : list (string * JsVal)) (s : string)
  : option (list (string * JsVal) * string) :=
  match fuel with
  | O => None
  | S fuel =>
      match skip_ws s with
      | String c r =>
          if Ascii.eqb c "034" then
            '(k, rest) ← parse_string r;
            match skip_ws rest with
            | String ":" rest =>
                '(v, rest) ← parse_value fuel rest;
                match skip_ws rest with
                | String "," rest => parse_members fuel (define k v props) rest
                | String "}" rest => Some (define k v props, rest)
                | _ => None
                end
            | _ => None
            end
          else None
      | "" => None
      end
  end.

(** [JSON.parse(txt)] *)
Definition JSON_parse (txt : string) : Result JsVal :=
  match parse_value (2 * String.length txt + 2) txt with
  | Some (v, rest) => if String.eqb (skip_ws rest) "" then Ok v else Throw SyntaxError
  | None => Throw SyntaxError
  end.

Definition hex4 (n : N) : string :=
  let h (d : N) := if (d <? 10)%N then byte (48 + d) else byte (87 + d) in
  String (h (n / 4096)%N) (String (h ((n / 256) mod 16)%N)
    (String (h ((n / 16) mod 16)%N) (String (h (n mod 16)%N) ""))).

(** [QuoteJSONString] *)
Definition quote_char (c : string) : string :=
  let cp := code_point c in
  if (cp =? 34)%N then "\" ++ quot
  else if (cp =? 92)%N then "\\"
  else if (cp =? 8)%N then "\b"
  else if (cp =? 12)%N then "\f"
  else if (cp =? 10)%N then "\n"
  else if (cp =? 13)%N then "\r"
  else if (cp =? 9)%N then "\t"
  else if (cp <? 32)%N || (55296 <=? cp)%N && (cp <=? 57343)%N then "\u" ++ hex4 cp
  else c.

Definition quote (s : string) : string :=
  quot ++ String.concat "" (map quote_char (utf8_chars s)) ++ quot.

Definition serializable (v : JsVal) : bool :=
  match v with
  | JUndefined | JNative _ => false
  | _ => true
  end.

(** [SerializeJSONProperty] with a gap of two spaces, at the indentation
    [indent]; [undefined] and functions are dealt with by the caller. *)
Fixpoint serialize (indent : string) (v : JsVal) : string :=
  match v with
  | JNull | JUndefined | JNative _ => "null"
  | JBool b => if b then "true" else "false"
  | JNum (Dec _ _ _ as n) => Number_toString n
  | JNum _ => "null"
  | JStr s => quote s
  | JArr [] => "[]"
  | JArr items =>
      let inner := indent ++ "  " in
      let nl := String (byte 10) "" in
      "[" ++ nl ++
      String.concat ("," ++ nl) (map (fun x => inner ++ serialize inner x) items)
      ++ nl ++ indent ++ "]"
  | JObj props =>
      let inner := indent ++ "  " in
      let nl := String (byte 10) "" in
      let member (p : string * JsVal) :=
        if serializable (snd p)
        then [inner ++ quote (fst p) ++ ": " ++ serialize inner (snd p)]
        else [] in
      match flat_map member props with
      | [] => "{}"
      | shown => "{" ++ nl ++ String.concat ("," ++ nl) shown ++ nl ++ indent ++ "}"
      end
  | JObjectPrototype => "{}"
  end.

(** [JSON.stringify(v, null, 2)] *)
Definition JSON_stringify (v : JsVal) : option string :=
  if serializable v then Some (serialize "" v) else None.

(** [n.toLocaleString()] in a locale that groups digits like [en-US],
    for the integers a row count can be. *)
Fixpoint group3 (ds : list ascii) : string :=
  match ds with
  | a :: b :: c :: ((_ :: _) as r) => String a (String b (String c ("," ++ group3 r)))
  | _ => string_of_list_ascii ds
  end.

Definition toLocaleString (n : JsNum) : string :=
  match n with
  | Dec false s 0 =>
      string_of_list_ascii
        (rev (list_ascii_of_string (group3 (rev (list_ascii_of_string (digits s))))))
  | _ => Number_toString n
  end.

End Reference.

(** * What the specification says

    The notions the statements are phrased with, and the pages and
    responses the examples run on. *)

(** The entity [esc] writes for a character. *)
Definition entity (c : ascii) : string :=
  if Ascii.eqb c "&" then "&amp;"
  else if Ascii.eqb c "<" then "&lt;"
  else if Ascii.eqb c ">" then "&gt;"
  else if Ascii.eqb c "034" then "&quot;"
  else if Ascii.eqb c "'" then "&#039;"
  else String c "".

(** The escaping the specification describes: every character replaced by
    its entity, in one pass. *)
Definition escapeHtml (t : string) : string := flat_map_chars entity t.

(** No markup character is left, and an ampersand opens an entity. *)
Fixpoint escaped (s : string) : bool :=
  match s with
  | "" => true
  | String c r =>
      negb (Ascii.eqb c "<") && negb (Ascii.eqb c ">")
      && negb (Ascii.eqb c "034") && negb (Ascii.eqb c "'")
      && (negb (Ascii.eqb c "&")
          || existsb (fun e => startsWith e r) ["amp;"; "lt;"; "gt;"; "quot;"; "#039;"])
      && escaped r
  end.

(** [s.includes(pat)] *)
Fixpoint includes (pat s : string) : bool :=
  startsWith pat s ||
  match s with
  | "" => false
  | String _ r => includes pat r
  end.

(** The number of places of [s] where [pat] starts. *)
Fixpoint occurrences (pat s : string) : nat :=
  match s with
  | "" => 0
  | String _ r => (if startsWith pat s then 1 else 0) + occurrences pat r
  end.

(** The keys of a list in first-seen order: a key, then the first-seen
    listing of the rest without it. *)
Fixpoint first_seen (keys : list string) : list string :=
  match keys with
  | [] => []
  | k :: rest => k :: List.filter (fun k' => negb (String.eqb k' k)) (first_seen rest)
  end.

(** A value [ToString] prints: no object with an own [toString] in it or
    in the arrays it holds. *)
Fixpoint printable (v : JsVal) : bool :=
  match v with
  | JArr items => forallb printable items
  | JObj props =>
      match own "toString" props with
      | Some _ => false
      | None => true
      end
  | _ => true
  end.

(** A record: an object whose values print. *)
Definition is_record (row : JsVal) : bool :=
  match row with
  | JObj props => forallb (fun p => printable (snd p)) props
  | _ => false
  end.

(** The keys of a record, in the order [Object.keys] lists them. *)
Definition record_keys (row : JsVal) : list string :=
  match row with
  | JObj props => map fst props
  | _ => []
  end.

(** The header the specification describes for the columns [cols]. *)
Definition header (cols : list string) : string :=
  "<thead><tr>"
  ++ String.concat "" (map (fun c => "<th>" ++ escapeHtml c ++ "</th>") cols)
  ++ "</tr></thead>".

(** [s] holds [n] occurrences of [pat], whatever follows it. *)
Definition counts (pat s : string) (n : nat) : Prop :=
  forall rest, occurrences pat (s ++ rest) = n + occurrences pat rest.

(** [set.has(k)] *)
Definition mem (k : string) (set : list string) : bool := existsb (String.eqb k) set.

(** The clamp of the specification: below 0 is 0, above 100 is 100. *)
Definition clamp (pct : JsNum) : JsNum :=
  match pct with
  | NaN => NaN
  | Infinity neg => if neg then num_of_Z 0 else num_of_Z 100
  | Dec neg s e =>
      if Qle_bool (num_value neg s e) 0 then num_of_Z 0
      else if Qle_bool 100 (num_value neg s e) then num_of_Z 100
      else pct
  end.

(** A finite Number between 0 and 100. *)
Definition in_range (x : JsNum) : Prop :=
  match x with
  | Dec neg s e => (0 <= num_value neg s e /\ num_value neg s e <= 100)%Q
  | _ => False
  end.

(** The element [id] is on the page. *)
Definition present (w : World) (id : string) : Prop := is_Some (page w !! id).

(** The elements the clear-filter handler addresses. *)
Definition clear_ids : list string :=
  ["subjectInput"; "fromEmailInput"; "isReadSelect"; "isStarredSelect";
   "emailTable"; "emailRaw"; "emailCount"; "emailTiming"; "emailBar"].

(** The page after the clear-filter handler. *)
Definition cleared (w : World) : World :=
  with_page
    (fun p =>
       alter (with_width "0%") "emailBar"
         (alter (with_content (Text dash)) "emailTiming"
           (alter (with_content (Text ("rows: " ++ dash))) "emailCount"
             (alter (with_content (Text dash)) "emailRaw"
               (alter (with_content (Markup dash)) "emailTable"
                 (alter (with_value "") "isStarredSelect"
                   (alter (with_value "") "isReadSelect"
                     (alter (with_value "") "fromEmailInput"
                       (alter (with_value "") "subjectInput" p))))))))) w.

Definition blank : Element := {| el_value := ""; el_content := Text ""; el_width := "" |}.

(** A page with the regions and controls the script addresses, all blank. *)
Definition demo_page : gmap string Element :=
  list_to_map
    (map (fun id => (id, blank))
       ["meMode"; "meRaw"; "meUser"; "meDisplay"; "meActive";
        "pingBar"; "pingOk"; "pingRaw";
        "subjectInput"; "fromEmailInput"; "isReadSelect"; "isStarredSelect";
        "emailBar"; "emailRaw"; "emailCount"; "emailTiming"; "emailTable";
        "runEmails"; "clearFilters"; "refreshPing"]).

Definition demo_world : World :=
  {| page := demo_page; requests := []; console := []; timers := []; listeners := [] |}.

(** The demo page with [  Invoice ] typed as subject and [true] selected
    for is-read. *)
Definition invoice_world : World :=
  with_page
    (fun p => <["subjectInput" := with_value "  Invoice " blank]>
                (<["isReadSelect" := with_value "true" blank]> p))
    demo_world.

(** The fallback record of [fetchJSON]. *)
Definition fallback (r : Response) : JsVal :=
  JObj [("status", JNum (num_of_Z (Z.of_N (status r)))); ("text", JStr (body r))].

(** A backend that answers every request with the text [not json]. *)
Definition not_json_server (url : string) : option Response :=
  Some {| status := 200; body := "not json" |}.

(** The user of the specification's example, as the endpoint nests the
    names. *)
Definition jane : JsVal :=
  JObj [("name", JObj [("givenName", JStr "Jane"); ("familyName", JStr "Doe")])].

(** The same names, not nested under [name]. *)
Definition jane_flat : JsVal :=
  JObj [("givenName", JStr "Jane"); ("familyName", JStr "Doe")].

(** [s] between double quotes. *)
Definition quoted (s : string) : string := quot ++ s ++ quot.

(** [{"mode":"demo","current_user":{"name":{"givenName":"Jane","familyName":"Doe"}}}] *)
Definition nested_body : string :=
  "{" ++ quoted "mode" ++ ":" ++ quoted "demo" ++ "," ++ quoted "current_user" ++ ":{"
  ++ quoted "name" ++ ":{" ++ quoted "givenName" ++ ":" ++ quoted "Jane" ++ ","
  ++ quoted "familyName" ++ ":" ++ quoted "Doe" ++ "}}}".

(** [{"mode":"demo","current_user":{"givenName":"Jane","familyName":"Doe"}}] *)
Definition flat_body : string :=
  "{" ++ quoted "mode" ++ ":" ++ quoted "demo" ++ "," ++ quoted "current_user" ++ ":{"
  ++ quoted "givenName" ++ ":" ++ quoted "Jane" ++ ","
  ++ quoted "familyName" ++ ":" ++ quoted "Doe" ++ "}}".

(** A backend that answers every request with the text [txt]. *)
Definition server (txt : string) (url : string) : option Response :=
  Some {| status := 200; body := txt |}.

(** Three records, of which the preview is asked to show two. *)
Definition three_rows : list JsVal :=
  [JObj [("a", JNum (num_of_Z 1)); ("b", JStr "<x>")];
   JObj [("b", JNum (num_of_Z 2)); ("c", JNull)];
   JObj [("d", JNum (num_of_Z 4))]].

(** A record with an own [__proto__] that is [null], then a record
    without it. *)
Definition proto_rows : JsVal := JArr [JObj [("__proto__", JNull)]; JObj []].

(** [m] leaves the list of requests as it is, whether it returns or throws. *)
Definition quiet {A} (m : M A) : Prop := forall w, requests (fst (m w)) = requests w.

(** * Further notions

    What the statements beyond the specification's are phrased with. *)

(** ** The identity fields *)

(** A field that is a text, or absent. *)
Definition text_or_absent (v : JsVal) : bool :=
  match v with
  | JStr _ | JUndefined | JNull => true
  | _ => false
  end.

(** The text of such a field, empty when it is absent. *)
Definition text_of (v : JsVal) : string :=
  match v with
  | JStr s => s
  | _ => ""
  end.

(** The first text of a list that is not empty. *)
Fixpoint first_nonempty (l : list string) : string :=
  match l with
  | [] => ""
  | s :: rest => if non_empty s then s else first_nonempty rest
  end.

(** What the [active] region shows for the value of the field. *)
Definition active_text (v : JsVal) : string :=
  match v with
  | JBool true => "true"
  | JBool false => "false"
  | _ => dash
  end.

(** The three regions [renderKV] writes. *)
Definition identity_ids : list string := ["meUser"; "meDisplay"; "meActive"].

(** A user with an email and a given name only, not active. *)
Definition jane_mail : JsVal :=
  JObj [("emails", JArr [JObj [("value", JStr "jane@example.org")]]);
        ("name", JObj [("givenName", JStr "Jane")]);
        ("active", JBool false)].

(** ** The loaders in two halves, and [init] (lines 124-127)

    An [async] loader runs at once up to its [fetch]; what follows the
    [await] runs in one piece when the body of the response is there.
    [init] calls [wireEvents] and then the three loaders in a row, so
    that their first halves run in that order; their second halves run
    in the order the responses arrive.  A loader that throws, or whose
    request fails, ends there (its promise is rejected) without holding
    up the other two. *)

Inductive Loader := UserLoader | PingLoader | EmailsLoader.

(** The elements a loader writes to once its response is there. *)
Definition footprint (l : Loader) : list string :=
  match l with
  | UserLoader => ["meMode"; "meRaw"; "meUser"; "meDisplay"; "meActive"]
  | PingLoader => ["pingOk"; "pingRaw"; "pingBar"]
  | EmailsLoader => ["emailRaw"; "emailCount"; "emailTiming"; "emailTable"; "emailBar"]
  end.

(** A loader up to its request: the URL it is about to fetch. *)
Definition start (l : Loader) : M string :=
  match l with
  | UserLoader => mret "/api/me"
  | PingLoader =>
      pingBar ← getById "pingBar"; progress pingBar (num_of_Z 12);;
      mret "/api/sql/ping"
  | EmailsLoader => emailsRequest
  end.

(** The world after [m], whether it returned or threw. *)
Definition attempt {A} (m : M A) (w : World) : World := fst (m w).

(** The timer a loader sets when it is through. *)
Definition timer_of (l : Loader) : option Timer :=
  match l with
  | UserLoader => None
  | PingLoader => Some {| timer_delay := 400; timer_bar := "pingBar" |}
  | EmailsLoader => Some {| timer_delay := 400; timer_bar := "emailBar" |}
  end.

Inductive Event := Arrives (l : Loader) (r : Response) | Fires (l : Loader).

Definition loader_of (e : Event) : Loader :=
  match e with
  | Arrives l _ | Fires l => l
  end.

Definition Loader_eqb (a b : Loader) : bool :=
  match a, b with
  | UserLoader, UserLoader | PingLoader, PingLoader | EmailsLoader, EmailsLoader => true
  | _, _ => false
  end.

(** The events of [s] that are the loader [l]'s, in their order. *)
Definition events_of (l : Loader) (s : list Event) : list Event :=
  List.filter (fun e => Loader_eqb l (loader_of e)) s.

(** The values of the four filter controls, when all four are on the
    page. *)
Definition filters (w : World) : option (string * string * string * string) :=
  subject ← el_value <$> page w !! "subjectInput";
  fromEmail ← el_value <$> page w !! "fromEmailInput";
  isRead ← el_value <$> page w !! "isReadSelect";
  isStarred ← el_value <$> page w !! "isStarredSelect";
  Some (subject, fromEmail, isRead, isStarred).

(** The URL [loadEmails] asks for on the page of [w], if the four
    controls are there. *)
Definition emails_url (w : World) : option string :=
  match filters w with
  | Some (subject, fromEmail, isRead, isStarred) =>
      Some (emailsUrl (emailQuery (trim subject) (trim fromEmail) isRead isStarred))
  | None => None
  end.

Section Init.

Variable fetch : string -> option Response.
Variable JSON_parse : string -> Result JsVal.
Variable JSON_stringify : JsVal -> option string.
Variable toLocaleString : JsNum -> string.

(** What [fetchJSON] returns for a response (lines 13-18). *)
Definition parsed (r : Response) : JsVal :=
  match JSON_parse (body r) with
  | Ok v => v
  | Throw _ => fallback r
  end.

(** Lines 61-64 of [loadUser] *)
Definition showUser (data : JsVal) : M unit :=
  console_log "[me]" data;;
  meMode ← getById "meMode"; set_textContent meMode (opt_get data "mode" ?? JStr dash);;
  meRaw ← getById "meRaw"; set_textContent meRaw (stringify JSON_stringify data);;
  renderKV (opt_get data "current_user").

(** Lines 70-74 of [loadPing] *)
Definition showPing (data : JsVal) : M unit :=
  console_log "[ping]" data;;
  pingOk ← getById "pingOk";
  set_textContent pingOk (JStr (if ToBoolean (opt_get data "ok") then "OK" else "Not OK"));;
  pingRaw ← getById "pingRaw"; set_textContent pingRaw (stringify JSON_stringify data);;
  pingBar ← getById "pingBar"; progress pingBar (num_of_Z 100);;
  setTimeout {| timer_delay := 400; timer_bar := "pingBar" |}.

(** A loader from the moment the body of its response is there. *)
Definition settle (l : Loader) (r : Response) : M unit :=
  match l with
  | UserLoader => showUser (parsed r)
  | PingLoader => showPing (parsed r)
  | EmailsLoader => showEmails JSON_stringify toLocaleString (parsed r)
  end.

(** A loader as a whole. *)
Definition load (l : Loader) : M unit :=
  match l with
  | UserLoader => loadUser fetch JSON_parse JSON_stringify
  | PingLoader => loadPing fetch JSON_parse JSON_stringify
  | EmailsLoader => loadEmails fetch JSON_parse JSON_stringify toLocaleString
  end.

(** The call of a loader by [init]: its first half and its request.  The
    result is the response it waits for, if any. *)
Definition launch (l : Loader) : M (list (Loader * Response)) := fun w =>
  match (url ← start l; request fetch url) w with
  | (w', Ok r) => (w', Ok [(l, r)])
  | (w', Throw _) => (w', Ok [])
  end.

(** [init] up to its [await]: the listeners are wired and the three
    loaders called. *)
Definition init_calls : M (list (Loader * Response)) :=
  wireEvents;;
  user ← launch UserLoader;
  ping ← launch PingLoader;
  emails ← launch EmailsLoader;
  mret (user ++ ping ++ emails)%list.

(** What happens once [init] has made its calls: the response a loader
    waits for arrives and the loader goes on from its [await], or the
    timer a loader has set fires. *)
Definition handle (e : Event) : M unit :=
  match e with
  | Arrives l r => settle l r
  | Fires l =>
      match timer_of l with
      | Some t => fire t
      | None => mret tt
      end
  end.

(** The events [s] happen in that order; a loader that throws leaves the
    others to go on. *)
Definition run_events (s : list Event) (w : World) : World :=
  fold_left (fun w e => attempt (handle e) w) s w.

(** The response a loader waits for, if its request was answered. *)
Definition waited (l : Loader) (url : string) : list (Loader * Response) :=
  match fetch url with
  | Some r => [(l, r)]
  | None => []
  end.

(** The responses [init] waits for, given the URL [loadEmails] asked
    for, if it got that far. *)
Definition answered (emails : option string) : list (Loader * Response) :=
  (waited UserLoader "/api/me" ++ waited PingLoader "/api/sql/ping"
   ++ match emails with
      | Some url => waited EmailsLoader url
      | None => []
      end)%list.

End Init.

(** ** Computations confined to some elements *)

(** [w] and [w'] show the same on the elements [ids]. *)
Definition agree (ids : list string) (w w' : World) : Prop :=
  forall id, In id ids -> page w !! id = page w' !! id.

(** [m] reads and writes the page on the elements [ids] only: the others
    are as they were, and on two worlds that agree on [ids] it has the
    same outcome and leaves worlds that agree on [ids]. *)
Definition confined (ids : list string) {A} (m : M A) : Prop :=
  (forall w id, ~ In id ids -> page (fst (m w)) !! id = page w !! id)
  /\ (forall w w', agree ids w w' ->
        snd (m w) = snd (m w') /\ agree ids (fst (m w)) (fst (m w'))).

(** [null], or one of the elements [ids]. *)
Definition among (ids : list string) (el : option string) : Prop :=
  match el with
  | None => True
  | Some id => In id ids
  end.

(** ** The listeners [wireEvents] adds *)

Definition on_page (w : World) (id : string) : bool :=
  match page w !! id with
  | Some _ => true
  | None => false
  end.

(** The three buttons with their handlers, those that are on the page. *)
Definition wired (w : World) : list (string * Handler) :=
  List.filter (fun p => on_page w (fst p))
    [("runEmails", OnLoadEmails); ("clearFilters", OnClearFilters);
     ("refreshPing", OnLoadPing)].

(** The world with the bar [bar], if there is one, at the width [width]. *)
Definition bar_at (width bar : string) (w : World) : World :=
  match page w !! bar with
  | Some _ => with_page (alter (with_width width) bar) w
  | None => w
  end.

(** ** The markup of the preview table *)

(** A cell, a row and the table, given the escaped texts of the cells. *)
Definition cell (e : string) : string := "<td>" ++ e ++ "</td>".

Definition row_of (es : list string) : string :=
  "<tr>" ++ String.concat "" (map cell es) ++ "</tr>".

Definition table_of (cols : list string) (ess : list (list string)) : string :=
  "<table>" ++ header cols ++ "<tbody>" ++ String.concat "" (map row_of ess)
  ++ "</tbody></table>".

(** The tags of a table with [c] columns and [m] data rows: [table],
    [thead], [tbody] and the header row, opened and closed, a [th] per
    column, and per data row a [tr] and a [td] per column. *)
Definition tag_count (c m : nat) : nat := 8 + 2 * c + m * (2 + 2 * c).

(** ** Examples *)

(** [{"ok":true}] *)
Definition ping_body : string := "{" ++ quoted "ok" ++ ":true}".

(** A backend that answers the ping with [{"ok":true}], the user
    endpoint with Jane's record, and fails on everything else. *)
Definition demo_server (url : string) : option Response :=
  if String.eqb url "/api/sql/ping" then Some {| status := 200; body := ping_body |}
  else if String.eqb url "/api/me" then Some {| status := 200; body := nested_body |}
  else None.

(** The user's response first, then the ping's, then the ping's timer. *)
Definition user_first : list Event :=
  [Arrives UserLoader {| status := 200; body := nested_body |};
   Arrives PingLoader {| status := 200; body := ping_body |};
   Fires PingLoader].

(** The ping's response and its timer first, then the user's response. *)
Definition ping_first : list Event :=
  [Arrives PingLoader {| status := 200; body := ping_body |};
   Fires PingLoader;
   Arrives UserLoader {| status := 200; body := nested_body |}].

(** A backend that is down. *)
Definition down_server (url : string) : option Response := None.

(** ** The data of the emails *)

(** The rows of the data: those of the array under [rows], none when
    there is no [rows]; [None] when [rows] is something else. *)
Definition rows_of (data : JsVal) : option (list JsVal) :=
  match opt_get data "rows" with
  | JArr items => Some items
  | JUndefined | JNull => Some []
  | _ => None
  end.

(** The timing [k] of the data, [undefined] when there is none. *)
Definition timing_of (data : JsVal) (k : string) : JsVal :=
  opt_get (opt_get data "timing" ||> JObj []) k.

(** A timing that is a number or a text, or absent. *)
Definition timing_ok (v : JsVal) : bool :=
  match v with
  | JNum _ | JStr _ | JUndefined | JNull => true
  | _ => false
  end.

(** What the timing line shows for it. *)
Definition timing_text (v : JsVal) : string :=
  match v with
  | JNum n => Number_toString n
  | JStr s => s
  | _ => dash
  end.

(** [{"rows":[{"id":1,"subject":"Hi"},{"id":2}],"timing":{"query_ms":12}}] *)
Definition emails_body : string :=
  "{" ++ quoted "rows" ++ ":[{" ++ quoted "id" ++ ":1," ++ quoted "subject" ++ ":"
  ++ quoted "Hi" ++ "},{" ++ quoted "id" ++ ":2}]," ++ quoted "timing" ++ ":{"
  ++ quoted "query_ms" ++ ":12}}".

Definition emails_data : JsVal :=
  JObj [("rows", JArr [JObj [("id", JNum (num_of_Z 1)); ("subject", JStr "Hi")];
                       JObj [("id", JNum (num_of_Z 2))]]);
        ("timing", JObj [("query_ms", JNum (num_of_Z 12))])].

(** A page with no element at all. *)
Definition empty_world : World :=
  {| page := ∅; requests := []; console := []; timers := []; listeners := [] |}.

(** ** The query of the emails *)

(** The characters a serialized parameter is made of: letters, digits,
    [*-._], [+] for a space and [%] for an escape. *)
Definition url_safe (c : ascii) : bool :=
  let n := N_of_ascii c in
  ((48 <=? n) && (n <=? 57) || (65 <=? n) && (n <=? 90) || (97 <=? n) && (n <=? 122)
   || (n =? 42) || (n =? 45) || (n =? 46) || (n =? 95) || (n =? 43) || (n =? 37))%N.

Fixpoint all_chars (p : ascii -> bool) (s : string) : bool :=
  match s with
  | "" => true
  | String c r => p c && all_chars p r
  end.

(** The parameters of the query for the four filter values: the filters
    that are not empty, in the order of the form, then the limit. *)
Definition filter_params (subject fromEmail isRead isStarred : string)
  : list (string * string) :=
  (List.filter (fun p => non_empty (snd p))
     [("subject", subject); ("from_email", fromEmail);
      ("is_read", isRead); ("is_starred", isStarred)]
   ++ [("limit", "100")])%list.

(** The elements the clear-filter handler assigns to, the bar apart. *)
Definition clear_targets : list string :=
  ["subjectInput"; "fromEmailInput"; "isReadSelect"; "isStarredSelect";
   "emailTable"; "emailRaw"; "emailCount"; "emailTiming"].

(** The demo page without the table region. *)
Definition no_table_world : World := with_page (delete "emailTable") demo_world.

(** A value that is [null] or [undefined]. *)
Definition nullish (v : JsVal) : bool :=
  match v with
  | JUndefined | JNull => true
  | _ => false
  end.

(** ** Reading escaped text back *)

(** The character the entity at the head of [s] stands for, with the
    number of characters of the entity after its [&]. *)
Definition entity_at (s : string) : option (ascii * nat) :=
  if startsWith "&amp;" s then Some ("&"%char, 4)
  else if startsWith "&lt;" s then Some ("<"%char, 3)
  else if startsWith "&gt;" s then Some (">"%char, 3)
  else if startsWith "&quot;" s then Some ("034"%char, 5)
  else if startsWith "&#039;" s then Some ("'"%char, 5)
  else None.

(** The text a browser shows for markup that holds the five entities of
    [esc] and no tag; [skip] characters of an entity are still to pass. *)
Fixpoint unescape_from (skip : nat) (s : string) : string :=
  match s with
  | "" => ""
  | String c r =>
      match skip with
      | S n => unescape_from n r
      | 0 =>
          match entity_at s with
          | Some (x, n) => String x (unescape_from n r)
          | None => String c (unescape_from 0 r)
          end
      end
  end.

Definition unescape (s : string) : string := unescape_from 0 s.

(** ** Where markup goes *)

(** The element [id] does not show markup: it shows text, or is not on
    the page. *)
Definition shows_text (id : string) (w : World) : Prop :=
  forall html, el_content <$> page w !! id <> Some (Markup html).

(** [m] leaves text where there is text, the table region apart. *)
Definition keeps_text {A} (m : M A) : Prop :=
  forall id w, id <> "emailTable" -> shows_text id w -> shows_text id (fst (m w)).

(** An update that does not put markup in. *)
Definition textual (f : Element -> Element) : Prop :=
  forall e html, el_content (f e) = Markup html -> el_content e = Markup html.

(** * Proofs *)

(** ** Strings *)

Lemma str_app_assoc (s t u : string) : (s ++ t) ++ u = s ++ (t ++ u).
Proof. induction s as [|c s IH]; simpl; [reflexivity | now rewrite IH]. Qed.

Lemma str_app_nil_r (s : string) : s ++ "" = s.
Proof. induction s as [|c s IH]; simpl; [reflexivity | now rewrite IH]. Qed.

Lemma flat_map_chars_app f s t :
  flat_map_chars f (s ++ t) = flat_map_chars f s ++ flat_map_chars f t.
Proof.
  induction s as [|c s IH]; simpl; [reflexivity|].
  now rewrite IH, str_app_assoc.
Qed.

Lemma flat_map_chars_compose f g s :
  flat_map_chars f (flat_map_chars g s) = flat_map_chars (fun c => flat_map_chars f (g c)) s.
Proof.
  induction s as [|c s IH]; simpl; [reflexivity|].
  now rewrite flat_map_chars_app, IH.
Qed.

Lemma flat_map_chars_ext f g s :
  (forall c, f c = g c) -> flat_map_chars f s = flat_map_chars g s.
Proof. intros E. induction s as [|c s IH]; simpl; [reflexivity | now rewrite E, IH]. Qed.

(** A pattern of one character: [replaceAll] rewrites the string
    character by character. *)
Lemma replaceAll_char p rep s :
  replaceAll (String p "") rep s
  = flat_map_chars (fun c => if Ascii.eqb p c then rep else String c "") s.
Proof.
  unfold replaceAll. induction s as [|c s IH]; simpl; [reflexivity|].
  destruct (Ascii.eqb p c); simpl; now rewrite IH.
Qed.

(** ** [esc] *)

(** Either [c] is the character [x], or the test for it fails. *)
Ltac case_char c x :=
  let E := fresh "E" in
  destruct (Ascii.eqb_spec x c) as [<-|E];
  [| apply Ascii.eqb_neq in E; try rewrite (Ascii.eqb_sym c x), E in * ].

(** The five [replaceAll] in a row substitute character by character: no
    replacement text holds a character a later step looks for, except the
    [&] that is dealt with first. *)
Lemma esc_chain t :
  replaceAll "'" "&#039;"
    (replaceAll quot "&quot;"
      (replaceAll ">" "&gt;"
        (replaceAll "<" "&lt;"
          (replaceAll "&" "&amp;" t)))) = escapeHtml t.
Proof.
  unfold quot, escapeHtml. rewrite !replaceAll_char, !flat_map_chars_compose.
  apply flat_map_chars_ext. intros c. unfold entity.
  case_char c "&"%char; [reflexivity|].
  case_char c "<"%char; [reflexivity|].
  case_char c ">"%char; [reflexivity|].
  case_char c "034"%char; [reflexivity|].
  case_char c "'"%char; [reflexivity|].
  repeat (cbn [flat_map_chars String.append];
          rewrite ?E, ?E0, ?E1, ?E2, ?E3).
  reflexivity.
Qed.

Lemma escaped_escapeHtml t : escaped (escapeHtml t) = true.
Proof.
  induction t as [|c t IH]; [reflexivity|].
  unfold escapeHtml in *. cbn [flat_map_chars]. unfold entity.
  case_char c "&"%char; [exact IH|].
  case_char c "<"%char; [exact IH|].
  case_char c ">"%char; [exact IH|].
  case_char c "034"%char; [exact IH|].
  case_char c "'"%char; [exact IH|].
  cbn [String.append escaped].
  rewrite (Ascii.eqb_sym c "&"), (Ascii.eqb_sym c "<"), (Ascii.eqb_sym c ">"),
    (Ascii.eqb_sym c "034"), (Ascii.eqb_sym c "'"), E, E0, E1, E2, E3.
  exact IH.
Qed.

Lemma escaped_no_markup s c :
  escaped s = true -> In c ["<"; ">"; "034"; "'"]%char ->
  ~ In c (list_ascii_of_string s).
Proof.
  induction s as [|a s IH]; simpl; [tauto|].
  rewrite !andb_true_iff, !negb_true_iff. intros [[[[[H1 H2] H3] H4] H5] H6] Hc [->|Hin].
  - destruct Hc as [<-|[<-|[<-|[<-|[]]]]];
      rewrite Ascii.eqb_refl in *; discriminate.
  - exact (IH H6 Hc Hin).
Qed.

Lemma escaped_ampersand s pre suf :
  escaped s = true -> s = pre ++ String "&" suf ->
  exists e, In e ["amp;"; "lt;"; "gt;"; "quot;"; "#039;"] /\ startsWith e suf = true.
Proof.
  revert s. induction pre as [|p pre IH]; intros s Hs ->;
    cbn [String.append escaped] in Hs; apply andb_true_iff in Hs as [Hc Hs].
  - apply andb_true_iff in Hc as [_ Hc].
    apply (existsb_exists (fun e => startsWith e suf)). exact Hc.
  - exact (IH _ Hs eq_refl).
Qed.

Lemma esc_Ok v t : ToString v = Ok t -> esc v = Ok (escapeHtml t).
Proof. intros H. unfold esc. rewrite H. unfold mbind, Result_bind. now rewrite esc_chain. Qed.

Lemma esc_string t : esc (JStr t) = Ok (escapeHtml t).
Proof. now apply esc_Ok. Qed.

Lemma esc_throws s e : ToString s = Throw e -> esc s = Throw e.
Proof. intros H. unfold esc. now rewrite H. Qed.

(** C1. Whenever [String(s)] yields a string [t], [esc s] returns [t] with
    each [&], [<], [>], double quote and single quote replaced by [&amp;],
    [&lt;], [&gt;], [&quot;] and [&#039;]: the five [replaceAll], applied in
    that order, amount to the substitution [escapeHtml], character by
    character.  The result holds no [<], [>], double quote or single
    quote, and every [&] in it opens one of the five entities. *)
Theorem esc_escapes (s : JsVal) (t : string) :
  ToString s = Ok t ->
  esc s = Ok (escapeHtml t)
  /\ (forall c, In c ["<"; ">"; "034"; "'"]%char ->
        ~ In c (list_ascii_of_string (escapeHtml t)))
  /\ (forall pre suf,
        escapeHtml t = pre ++ String "&" suf ->
        exists e, In e ["amp;"; "lt;"; "gt;"; "quot;"; "#039;"] /\ startsWith e suf = true).
Proof.
  intros H. split; [now apply esc_Ok|]. split.
  - intros c Hc. apply escaped_no_markup; [apply escaped_escapeHtml | exact Hc].
  - intros pre suf E. eapply escaped_ampersand; [apply escaped_escapeHtml | exact E].
Qed.

Lemma esc_escapes_witness :
  ToString (JArr [JStr "<a href='x'>"; JNull; JStr "R&D"]) = Ok "<a href='x'>,,R&D"
  /\ esc (JArr [JStr "<a href='x'>"; JNull; JStr "R&D"])
     = Ok "&lt;a href=&#039;x&#039;&gt;,,R&amp;D".
Proof.
  split; [reflexivity|].
  apply (esc_escapes (JArr [JStr "<a href='x'>"; JNull; JStr "R&D"]) "<a href='x'>,,R&D").
  reflexivity.
Defined.

(** ** Values that print *)

(** Induction on values, with the hypothesis for every element of an array. *)
Lemma JsVal_ind' (P : JsVal -> Prop) :
  P JUndefined -> P JNull -> (forall b, P (JBool b)) -> (forall n, P (JNum n)) ->
  (forall s, P (JStr s)) ->
  (forall items, Forall P items -> P (JArr items)) ->
  (forall props, P (JObj props)) ->
  P JObjectPrototype -> (forall n, P (JNative n)) ->
  forall v, P v.
Proof.
  intros H1 H2 H3 H4 H5 H6 H7 H8 H9.
  fix IH 1. intros [| |b|n|s|items|props| |n].
  - exact H1.
  - exact H2.
  - apply H3.
  - apply H4.
  - apply H5.
  - apply H6. induction items as [|x xs IHxs]; constructor; [apply IH | exact IHxs].
  - apply H7.
  - exact H8.
  - apply H9.
Qed.

Lemma ToString_array items : ToString (JArr items) = Array_join "," items.
Proof.
  induction items as [|x xs IH]; [reflexivity|].
  cbn [Array_join]. rewrite <- IH.
  destruct xs; [destruct x; cbn; try reflexivity; destruct (ToString _); reflexivity|].
  destruct x; cbn; try reflexivity; destruct (ToString _); reflexivity.
Qed.

Lemma printable_ToString v : printable v = true -> exists s, ToString v = Ok s.
Proof.
  induction v as [| |b|n|s|items IH|props| |n] using JsVal_ind'; intros Hp;
    try (eexists; reflexivity).
  - rewrite ToString_array. cbn [printable] in Hp.
    induction IH as [|x xs Hx _ IHxs]; [eexists; reflexivity|].
    cbn [forallb] in Hp. apply andb_true_iff in Hp as [Hpx Hpxs].
    destruct (IHxs Hpxs) as [r Hr]. destruct (Hx Hpx) as [t Ht].
    cbn [Array_join]. rewrite Hr.
    assert (exists t', match x with JUndefined | JNull => Ok "" | _ => ToString x end = Ok t')
      as [t' ->] by (destruct x; eauto).
    cbn. destruct xs; eexists; reflexivity.
  - cbn in *. destruct (own "toString" props); [discriminate | eexists; reflexivity].
Qed.

Lemma own_In k v props : own k props = Some v -> In (k, v) props.
Proof.
  induction props as [|[k' v'] props IH]; [discriminate|].
  cbn [own]. destruct (String.eqb_spec k' k); [intros [= ->]; subst; now left|].
  intros H. right. auto.
Qed.

Lemma inherited_printable k : printable (inherited k) = true.
Proof.
  unfold inherited.
  destruct (String.eqb k "__proto__"); [reflexivity|].
  destruct (String.eqb k "constructor"); [reflexivity|].
  destruct (existsb _ _); reflexivity.
Qed.

(** ** Counting tags in markup *)

Lemma counts_nil pat : counts pat "" 0.
Proof. intros rest. reflexivity. Qed.

Lemma counts_app pat s t n m :
  counts pat s n -> counts pat t m -> counts pat (s ++ t) (n + m).
Proof. intros Hs Ht rest. rewrite str_app_assoc, Hs, Ht. lia. Qed.

Lemma counts_total pat s n : counts pat s n -> occurrences pat s = n.
Proof. intros H. specialize (H ""). rewrite str_app_nil_r in H. simpl in H. lia. Qed.

Lemma counts_escaped pat s :
  escaped s = true -> counts (String "<" pat) s 0.
Proof.
  intros Hs rest. induction s as [|c s IH]; [reflexivity|].
  cbn [escaped] in Hs. rewrite !andb_true_iff, !negb_true_iff in Hs.
  destruct Hs as [[[[[H1 _] _] _] _] Hs].
  cbn [String.append occurrences startsWith].
  rewrite (Ascii.eqb_sym "<" c), H1. cbn [andb]. exact (IH Hs).
Qed.

Lemma counts_concat pat (l : list string) (n : nat) :
  Forall (fun s => counts pat s n) l ->
  counts pat (String.concat "" l) (length l * n).
Proof.
  induction 1 as [|s l Hs Hl IH]; [apply counts_nil|].
  cbn [length Nat.mul]. destruct l as [|t l].
  - cbn in *. replace (n + 0) with n by lia. exact Hs.
  - change (String.concat "" (s :: t :: l)) with (s ++ "" ++ String.concat "" (t :: l)).
    apply counts_app; [exact Hs | exact IH].
Qed.

(** ** [mapM] over results *)

Lemma mapM_Ok {A B} (f : A -> Result B) (g : A -> B) (l : list A) :
  Forall (fun x => f x = Ok (g x)) l -> mapM f l = Ok (map g l).
Proof.
  induction 1 as [|x l Hx Hl IH]; [reflexivity|].
  cbn. rewrite Hx. cbn. rewrite IH. reflexivity.
Qed.

Lemma mapM_Ok_ex {A B} (f : A -> Result B) (P : B -> Prop) (l : list A) :
  Forall (fun x => exists y, f x = Ok y /\ P y) l ->
  exists ys, mapM f l = Ok ys /\ Forall P ys /\ length ys = length l.
Proof.
  induction 1 as [|x l (y & Hy & Py) Hl (ys & IH & Pys & Hlen)].
  - exists []. repeat split; constructor.
  - exists (y :: ys). cbn. rewrite Hy. cbn. rewrite IH. repeat split.
    + constructor; assumption.
    + cbn. now rewrite Hlen.
Qed.

(** ** The columns *)

Lemma filter_comm {A} (p q : A -> bool) l :
  List.filter p (List.filter q l) = List.filter q (List.filter p l).
Proof.
  induction l as [|x l IH]; [reflexivity|].
  cbn [List.filter]. destruct (p x) eqn:Hp, (q x) eqn:Hq; cbn [List.filter];
    rewrite ?Hp, ?Hq, IH; reflexivity.
Qed.

Lemma filter_absorb {A} (p q : A -> bool) l :
  (forall x, p x = true -> q x = true) ->
  List.filter p (List.filter q l) = List.filter p l.
Proof.
  intros H. induction l as [|x l IH]; [reflexivity|].
  cbn [List.filter]. destruct (p x) eqn:Hp.
  - rewrite (H x Hp). cbn [List.filter]. now rewrite Hp, IH.
  - destruct (q x); cbn [List.filter]; rewrite ?Hp; exact IH.
Qed.

Lemma first_seen_filter p l : first_seen (List.filter p l) = List.filter p (first_seen l).
Proof.
  induction l as [|k l IH]; [reflexivity|].
  cbn [List.filter first_seen]. destruct (p k) eqn:Hk.
  - cbn [first_seen]. now rewrite IH, filter_comm.
  - rewrite IH. symmetry. apply filter_absorb.
    intros x Hx. apply negb_true_iff, String.eqb_neq. intros ->. congruence.
Qed.

Lemma mem_app k s t : mem k (s ++ t) = mem k s || mem k t.
Proof. apply existsb_app. Qed.

(** Adding keys to a [Set] one by one appends those it does not hold yet,
    in first-seen order. *)
Lemma fold_Set_add keys set :
  fold_left Set_add keys set
  = (set ++ first_seen (List.filter (fun k => negb (mem k set)) keys))%list.
Proof.
  revert set. induction keys as [|k keys IH]; intros set.
  - cbn. now rewrite app_nil_r.
  - cbn [fold_left List.filter]. rewrite IH. unfold Set_add. fold (mem k set).
    destruct (mem k set) eqn:Hk; cbn [negb]; [reflexivity|].
    cbn [first_seen]. rewrite <- app_assoc. cbn [app]. do 2 f_equal.
    rewrite <- first_seen_filter, filter_comm. f_equal.
    clear. induction keys as [|x keys IH]; [reflexivity|].
    cbn [List.filter]. rewrite mem_app. cbn [mem existsb]. rewrite orb_false_r.
    fold (mem x set). rewrite negb_orb, IH.
    destruct (x =? k)%string; cbn [negb List.filter]; rewrite ?andb_false_r, ?andb_true_r;
      reflexivity.
Qed.

Lemma reduce_keys_fold set sample :
  Forall (fun row => is_record row = true) sample ->
  reduce_keys set sample = Ok (fold_left Set_add (flat_map record_keys sample) set).
Proof.
  intros H. revert set. induction H as [|row sample Hr Hs IH]; intros set; [reflexivity|].
  destruct row; try discriminate.
  cbn [reduce_keys Object_keys flat_map record_keys]. cbn.
  now rewrite IH, fold_left_app.
Qed.

Lemma reduce_keys_first_seen sample :
  Forall (fun row => is_record row = true) sample ->
  reduce_keys [] sample = Ok (first_seen (flat_map record_keys sample)).
Proof.
  intros H. rewrite (reduce_keys_fold _ _ H), fold_Set_add. cbn [app]. do 2 f_equal.
  induction (flat_map record_keys sample) as [|k l IH]; [reflexivity|].
  cbn [List.filter mem existsb negb]. f_equal. exact IH.
Qed.

Lemma first_seen_In k l : In k (first_seen l) <-> In k l.
Proof.
  induction l as [|x l IH]; [reflexivity|].
  cbn [first_seen In]. rewrite filter_In, IH, negb_true_iff, String.eqb_neq.
  destruct (String.eqb_spec x k); [subst; tauto|]. split; [tauto|].
  intros [?|?]; [tauto|]. right. split; [assumption|]. congruence.
Qed.

Lemma first_seen_NoDup l : List.NoDup (first_seen l).
Proof.
  induction l as [|x l IH]; [constructor|].
  cbn [first_seen]. constructor.
  - rewrite filter_In, negb_true_iff, String.eqb_neq. tauto.
  - now apply List.NoDup_filter.
Qed.

(** ** [slice] *)

Lemma slice0_count {A} (fin : Z) (rows : list A) :
  (0 <= fin)%Z ->
  slice0 fin rows = take (Nat.min (length rows) (Z.to_nat fin)) rows.
Proof.
  intros H. unfold slice0. destruct (Z.ltb_spec fin 0); [lia|].
  destruct (Z.le_ge_cases fin (Z.of_nat (length rows))).
  - rewrite Z.min_l by lia. f_equal. lia.
  - rewrite Z.min_r by lia. rewrite Nat2Z.id.
    rewrite !firstn_all2 by lia. reflexivity.
Qed.

Lemma slice0_length {A} (fin : Z) (rows : list A) :
  (0 <= fin)%Z -> length (slice0 fin rows) = Nat.min (length rows) (Z.to_nat fin).
Proof. intros H. rewrite slice0_count by assumption. rewrite length_take. lia. Qed.

(** ** Cells, rows and the table *)

(** A cell of a record always renders, whatever the column. *)
Lemma td_record row c :
  is_record row = true ->
  exists e, td row c = Ok ("<td>" ++ e ++ "</td>") /\ escaped e = true.
Proof.
  destruct row as [| | | | | |props| |]; try discriminate. cbn [is_record]. intros Hr.
  assert (printable (get (JObj props) c ?? JStr dash) = true) as Hp.
  { cbn [get]. destruct (own c props) as [v|] eqn:Hown.
    - apply own_In in Hown. rewrite forallb_forall in Hr. specialize (Hr _ Hown).
      cbn in Hr. destruct v; try exact Hr; reflexivity.
    - pose proof (inherited_printable c). destruct (inherited c); try assumption; reflexivity. }
  apply printable_ToString in Hp as [t Ht].
  exists (escapeHtml t). split; [|apply escaped_escapeHtml].
  unfold td, get_prop, mbind, Result_bind. rewrite (esc_Ok _ _ Ht). reflexivity.
Qed.

(** An explicit [null] always renders as the dash. *)
Lemma td_null props c :
  own c props = Some JNull -> td (JObj props) c = Ok ("<td>" ++ dash ++ "</td>").
Proof. intros H. unfold td, get_prop, get, mbind, Result_bind. rewrite H. reflexivity. Qed.

(** So does a missing key, when [Object.prototype] has no property of
    that name. *)
Lemma td_missing props c :
  own c props = None -> inherited c = JUndefined ->
  td (JObj props) c = Ok ("<td>" ++ dash ++ "</td>").
Proof.
  intros H Hi. unfold td, get_prop, get, mbind, Result_bind. rewrite H, Hi. reflexivity.
Qed.

(** A cell holds one [<td>] and no [<tr>]. *)
Lemma counts_cell e :
  escaped e = true ->
  counts "<td>" ("<td>" ++ e ++ "</td>") 1 /\ counts "<tr>" ("<td>" ++ e ++ "</td>") 0.
Proof.
  intros He. split.
  - apply (counts_app _ "<td>" _ 1 0); [intros rest; reflexivity|].
    apply (counts_app _ e _ 0 0); [now apply counts_escaped | intros rest; reflexivity].
  - apply (counts_app _ "<td>" _ 0 0); [intros rest; reflexivity|].
    apply (counts_app _ e _ 0 0); [now apply counts_escaped | intros rest; reflexivity].
Qed.

(** A row of a record: one [<tr>], one [<td>] per column. *)
Lemma tr_record cols row :
  is_record row = true ->
  exists html, tr cols row = Ok html
    /\ counts "<tr>" html 1 /\ counts "<td>" html (length cols).
Proof.
  intros Hr.
  destruct (mapM_Ok_ex (td row)
              (fun html => counts "<td>" html 1 /\ counts "<tr>" html 0) cols)
    as (tds & Htds & Hc & Hlen).
  { apply List.Forall_forall. intros c _. destruct (td_record row c Hr) as (e & He & Hesc).
    exists ("<td>" ++ e ++ "</td>"). split; [exact He | now apply counts_cell]. }
  exists ("<tr>" ++ String.concat "" tds ++ "</tr>"). split; [|split].
  - unfold tr. rewrite Htds. reflexivity.
  - apply (counts_app _ "<tr>" _ 1 0); [intros rest; reflexivity|].
    apply (counts_app _ _ _ 0 0); [|intros rest; reflexivity].
    replace 0 with (length tds * 0) by lia. apply counts_concat.
    eapply List.Forall_impl; [|exact Hc]. now intros ? [_ ?].
  - apply (counts_app _ "<tr>" _ 0 (length cols)); [intros rest; reflexivity|].
    replace (length cols) with (length tds * 1 + 0) by lia.
    apply counts_app; [|intros rest; reflexivity].
    apply counts_concat. eapply List.Forall_impl; [|exact Hc]. now intros ? [? _].
Qed.

Lemma th_Ok c : th c = Ok ("<th>" ++ escapeHtml c ++ "</th>").
Proof. unfold th. rewrite (esc_Ok (JStr c) c eq_refl). reflexivity. Qed.

Lemma previewHTML_nonempty items maxRows :
  items <> [] ->
  previewHTML (JArr items) maxRows
  = (let sample := slice0 (default 10%Z maxRows) items in
     cols ← reduce_keys [] sample;
     ths ← mapM th cols;
     trs ← mapM (tr cols) sample;
     Ok ("<table>" ++ ("<thead><tr>" ++ String.concat "" ths ++ "</tr></thead>")
         ++ ("<tbody>" ++ String.concat "" trs ++ "</tbody>") ++ "</table>")).
Proof. destruct items; [congruence | unfold previewHTML; reflexivity]. Qed.

(** C2. For a non-empty array of records and a maximum row count [maxRows]
    (10 when left out), the table has [min (length items) maxRows] data
    rows, each with a cell per column, and its header lists the keys of
    the first [min (length items) maxRows] records and of no other, each
    once, in first-seen order.  That table is what [renderPreviewTable]
    renders: it returns with the markup as the [innerHTML] of the element
    it was given, and every other element as it was. *)
Theorem preview_rows_and_columns (items : list JsVal) (maxRows : option Z) :
  items <> [] ->
  Forall (fun row => is_record row = true) items ->
  (0 <= default 10%Z maxRows)%Z ->
  let m := Nat.min (length items) (Z.to_nat (default 10%Z maxRows)) in
  let cols := first_seen (flat_map record_keys (take m items)) in
  exists body,
    previewHTML (JArr items) maxRows
    = Ok ("<table>" ++ header cols ++ "<tbody>" ++ body ++ "</tbody></table>")
    /\ occurrences "<tr>" body = m
    /\ occurrences "<td>" body = m * length cols
    /\ List.NoDup cols
    /\ (forall k, In k cols <-> exists row, In row (take m items) /\ In k (record_keys row))
    /\ (forall id w,
          present w id ->
          exists w',
            renderPreviewTable (Some id) (JArr items) maxRows w = (w', Ok tt)
            /\ el_content <$> page w' !! id
               = Some (Markup ("<table>" ++ header cols ++ "<tbody>" ++ body
                               ++ "</tbody></table>"))
            /\ (forall j, j <> id -> page w' !! j = page w !! j)).
Proof.
  intros Hne Hrec Hmax m cols.
  assert (Forall (fun row => is_record row = true) (take m items)) as Hsample
    by (now apply Forall_take).
  destruct (mapM_Ok_ex (tr cols)
              (fun html => counts "<tr>" html 1 /\ counts "<td>" html (length cols))
              (take m items)) as (trs & Htrs & Hc & Hlen).
  { eapply List.Forall_impl; [|exact Hsample]. intros row Hr. cbv beta in Hr.
    destruct (tr_record cols row Hr) as (html & ? & ? & ?). eauto. }
  assert (length (take m items) = m) as Hm by (rewrite length_take; lia).
  assert (previewHTML (JArr items) maxRows
          = Ok ("<table>" ++ header cols ++ "<tbody>" ++ String.concat "" trs
                ++ "</tbody></table>")) as Hhtml.
  { rewrite previewHTML_nonempty by assumption. cbv zeta.
    rewrite slice0_count by assumption. fold m.
    rewrite (reduce_keys_first_seen _ Hsample). fold cols.
    unfold mbind at 1, Result_bind at 1.
    rewrite (mapM_Ok th (fun c => "<th>" ++ escapeHtml c ++ "</th>"))
      by (apply List.Forall_forall; intros; apply th_Ok).
    unfold mbind at 1, Result_bind at 1. rewrite Htrs.
    unfold mbind, Result_bind, header. now rewrite !str_app_assoc. }
  exists (String.concat "" trs).
  split; [exact Hhtml|]. split; [|split; [|split; [|split; [|]]]].
  - rewrite <- Hm, <- Hlen at 1. apply counts_total.
    replace (length trs) with (length trs * 1) by lia. apply counts_concat.
    eapply List.Forall_impl; [|exact Hc]. now intros ? [? _].
  - rewrite <- Hm at 1. rewrite <- Hlen. apply counts_total, counts_concat.
    eapply List.Forall_impl; [|exact Hc]. now intros ? [_ ?].
  - apply first_seen_NoDup.
  - intros k. unfold cols. rewrite first_seen_In, in_flat_map. tauto.
  - intros id w [e He]. eexists. split; [|split].
    + unfold renderPreviewTable. rewrite Hhtml. reflexivity.
    + cbn [page with_page]. now rewrite lookup_alter_eq, He.
    + intros j Hj. cbn [page with_page]. now rewrite lookup_alter_ne by congruence.
Qed.

Lemma preview_rows_and_columns_witness :
  Forall (fun row => is_record row = true) three_rows
  /\ present demo_world "emailTable"
  /\ exists body,
       previewHTML (JArr three_rows) (Some 2%Z)
       = Ok ("<table>" ++ header ["a"; "b"; "c"] ++ "<tbody>" ++ body ++ "</tbody></table>")
       /\ occurrences "<tr>" body = 2
       /\ exists w',
            renderPreviewTable (Some "emailTable") (JArr three_rows) (Some 2%Z) demo_world
            = (w', Ok tt)
            /\ el_content <$> page w' !! "emailTable"
               = Some (Markup ("<table>" ++ header ["a"; "b"; "c"] ++ "<tbody>" ++ body
                               ++ "</tbody></table>")).
Proof.
  assert (Forall (fun row => is_record row = true) three_rows) as H
    by (repeat constructor).
  assert (present demo_world "emailTable") as Hel by (vm_compute; eauto).
  split; [exact H|]. split; [exact Hel|].
  destruct (preview_rows_and_columns three_rows (Some 2%Z))
    as (body & Hb & Hr & _ & _ & _ & Hrender);
    [discriminate | exact H | discriminate |].
  destruct (Hrender "emailTable" demo_world Hel) as (w' & Hrun & Hshown & _).
  exists body. split; [exact Hb|]. split; [exact Hr|].
  exists w'. split; [exact Hrun | exact Hshown].
Defined.

(** C7. For [rows] that is not an array, or is the empty array, the markup
    is the placeholder message [No rows available.], whatever [maxRows]:
    that is what [renderPreviewTable] assigns to [innerHTML], and it holds
    no table element. *)
Theorem preview_placeholder (rows : JsVal) (maxRows : option Z) :
  (forall row rest, rows <> JArr (row :: rest)) ->
  previewHTML rows maxRows = Ok empty_message
  /\ (forall el w, renderPreviewTable el rows maxRows w = set_innerHTML el empty_message w)
  /\ (forall id w,
        present w id ->
        exists w', renderPreviewTable (Some id) rows maxRows w = (w', Ok tt)
                   /\ el_content <$> page w' !! id = Some (Markup empty_message))
  /\ includes "<table" empty_message = false.
Proof.
  intros H.
  assert (previewHTML rows maxRows = Ok empty_message) as E.
  { destruct rows as [| | | | |items| | |]; try reflexivity.
    destruct items as [|row rest]; [reflexivity | now destruct (H row rest)]. }
  split; [exact E|]. split; [|split].
  - intros el w. unfold renderPreviewTable. now rewrite E.
  - intros id w [e He]. eexists. split.
    + unfold renderPreviewTable. rewrite E. reflexivity.
    + cbn [page with_page]. now rewrite lookup_alter_eq, He.
  - reflexivity.
Qed.

Lemma preview_placeholder_witness :
  (forall row rest, JArr [] <> JArr (row :: rest))
  /\ previewHTML (JArr []) None = Ok empty_message
  /\ previewHTML (JObj [("rows", JArr [JObj []])]) None = Ok empty_message.
Proof.
  split; [discriminate|]. split.
  - apply (preview_placeholder (JArr []) None). discriminate.
  - apply (preview_placeholder (JObj [("rows", JArr [JObj []])]) None). discriminate.
Defined.

(** C10. The rows [[{"__proto__": null}, {}]].  The cell of the first
    record, whose value is an explicit [null], is the dash.  The cell of
    the second record, which has no such key, is not: the read finds
    [Object.prototype] and the cell shows [[object Object]].  Likewise a
    record without a [constructor] shows the function [Object] in that
    column. *)
Theorem td_inherited_key :
  previewHTML proto_rows None
  = Ok ("<table><thead><tr><th>__proto__</th></tr></thead><tbody>"
        ++ "<tr><td>" ++ dash ++ "</td></tr>"
        ++ "<tr><td>[object Object]</td></tr>"
        ++ "</tbody></table>")
  /\ td (JObj [("__proto__", JNull)]) "__proto__" = Ok ("<td>" ++ dash ++ "</td>")
  /\ td (JObj []) "__proto__" = Ok "<td>[object Object]</td>"
  /\ td (JObj []) "__proto__" <> td (JObj [("__proto__", JNull)]) "__proto__"
  /\ td (JObj []) "constructor" = Ok "<td>function Object() { [native code] }</td>".
Proof.
  split; [reflexivity|]. split; [apply td_null; reflexivity|].
  split; [reflexivity|]. split; [|reflexivity].
  rewrite (td_null [("__proto__", JNull)] "__proto__" eq_refl). vm_compute. discriminate.
Qed.

(** ** The clamp *)

Lemma value_0 : (num_value false 0 0 == 0)%Q.
Proof. reflexivity. Qed.

Lemma value_100 : (num_value false 100 0 == 100)%Q.
Proof. reflexivity. Qed.

Lemma Qle_bool_false x y : Qle_bool x y = false <-> (y < x)%Q.
Proof.
  split; intros H.
  - apply Qnot_le_lt. intros Hle. apply Qle_bool_iff in Hle. congruence.
  - destruct (Qle_bool x y) eqn:E; [|reflexivity].
    apply Qle_bool_iff in E. lra.
Qed.

(** What [progress] computes is the clamp. *)
Lemma Math_clamp pct :
  Math_max [num_of_Z 0; Math_min [num_of_Z 100; pct]] = clamp pct.
Proof.
  destruct pct as [|neg|neg s e]; [reflexivity | destruct neg; reflexivity |].
  unfold Math_min, Math_max, clamp.
  change (num_of_Z 0) with (Dec false 0 0). change (num_of_Z 100) with (Dec false 100 0).
  cbn [Math_min_from Math_max_from is_zero Bool.eqb andb num_ltb negb].
  rewrite andb_false_r. cbn [N.eqb Pos.eqb andb].
  set (v := num_value neg s e).
  destruct (v ?= num_value false 100 0)%Q eqn:C; rewrite value_100 in C.
  - apply Qeq_alt in C.
    replace (Qle_bool v 0) with false by (symmetry; apply Qle_bool_false; lra).
    replace (Qle_bool 100 v) with true by (symmetry; apply Qle_bool_iff; lra).
    reflexivity.
  - apply Qlt_alt in C. rewrite andb_false_r.
    cbn [num_ltb]. fold v.
    destruct (num_value false 0 0 ?= v)%Q eqn:D; rewrite value_0 in D.
    + apply Qeq_alt in D.
      replace (Qle_bool v 0) with true by (symmetry; apply Qle_bool_iff; lra).
      reflexivity.
    + apply Qlt_alt in D.
      replace (Qle_bool v 0) with false by (symmetry; apply Qle_bool_false; lra).
      replace (Qle_bool 100 v) with false by (symmetry; apply Qle_bool_false; lra).
      reflexivity.
    + apply Qgt_alt in D.
      replace (Qle_bool v 0) with true by (symmetry; apply Qle_bool_iff; lra).
      reflexivity.
  - apply Qgt_alt in C.
    replace (Qle_bool v 0) with false by (symmetry; apply Qle_bool_false; lra).
    replace (Qle_bool 100 v) with true by (symmetry; apply Qle_bool_iff; lra).
    reflexivity.
Qed.

Lemma in_range_0 : in_range (num_of_Z 0).
Proof. change (in_range (Dec false 0 0)). unfold in_range. rewrite value_0. lra. Qed.

Lemma in_range_100 : in_range (num_of_Z 100).
Proof. change (in_range (Dec false 100 0)). unfold in_range. rewrite value_100. lra. Qed.

Lemma clamp_in_range pct : pct <> NaN -> in_range (clamp pct).
Proof.
  intros H. destruct pct as [|neg|neg s e];
    [congruence | destruct neg; [apply in_range_0 | apply in_range_100] |].
  unfold clamp. destruct (Qle_bool _ 0) eqn:H0; [apply in_range_0|].
  destruct (Qle_bool 100 _) eqn:H1; [apply in_range_100|].
  apply Qle_bool_false in H0, H1. cbn [in_range]. lra.
Qed.

Lemma clamp_inside neg s e :
  (0 < num_value neg s e < 100)%Q -> clamp (Dec neg s e) = Dec neg s e.
Proof.
  intros [H0 H1]. unfold clamp.
  replace (Qle_bool _ 0) with false by (symmetry; apply Qle_bool_false; lra).
  replace (Qle_bool 100 _) with false by (symmetry; apply Qle_bool_false; lra).
  reflexivity.
Qed.

(** ** Running the script on a page *)

Lemma present_alter w id j f : present w id -> present (with_page (alter f j) w) id.
Proof.
  unfold present. cbn [page with_page]. intros [e He].
  destruct (decide (j = id)) as [->|Hne].
  - rewrite lookup_alter_eq, He. eauto.
  - rewrite lookup_alter_ne by assumption. eauto.
Qed.

Lemma present_value w id v : el_value <$> page w !! id = Some v -> present w id.
Proof. unfold present. destruct (page w !! id); [eauto | discriminate]. Qed.

Lemma run_lift {A B} (a : A) (k : A -> M B) w : (lift (Ok a) ≫= k) w = k a w.
Proof. reflexivity. Qed.

Lemma run_bind {A B} (m : M A) (k : A -> M B) w w' a :
  m w = (w', Ok a) -> (m ≫= k) w = k a w'.
Proof. intros H. unfold mbind, M_bind. now rewrite H. Qed.

Lemma run_getById {B} id (k : option string -> M B) w :
  present w id -> (getById id ≫= k) w = k (Some id) w.
Proof. intros [e He]. unfold mbind, M_bind, getById. now rewrite He. Qed.

Lemma run_getById_any {B} id (k : option string -> M B) w :
  (getById id ≫= k) w
  = k match page w !! id with
      | Some _ => Some id
      | None => None
      end w.
Proof. unfold mbind, M_bind, getById. destruct (page w !! id); reflexivity. Qed.

Lemma run_update {B} id f (k : unit -> M B) w :
  (update (Some id) f ≫= k) w = k tt (with_page (alter f id) w).
Proof. reflexivity. Qed.

Lemma run_set_value {B} id s (k : unit -> M B) w :
  (set_value (Some id) s ≫= k) w = k tt (with_page (alter (with_value s) id) w).
Proof. reflexivity. Qed.

Lemma run_set_innerHTML {B} id s (k : unit -> M B) w :
  (set_innerHTML (Some id) s ≫= k) w
  = k tt (with_page (alter (with_content (Markup s)) id) w).
Proof. reflexivity. Qed.

Lemma run_set_text {B} id s (k : unit -> M B) w :
  (set_textContent (Some id) (JStr s) ≫= k) w
  = k tt (with_page (alter (with_content (Text s)) id) w).
Proof. reflexivity. Qed.

(** A printable value assigned to [textContent] becomes the text. *)
Lemma run_set_textContent {B} id v (k : unit -> M B) w :
  printable v = true ->
  exists s, (set_textContent (Some id) v ≫= k) w
            = k tt (with_page (alter (with_content (Text s)) id) w).
Proof.
  intros Hp. destruct (printable_ToString v Hp) as [s Hs].
  assert (exists s', match v with JUndefined | JNull => Ok "" | _ => ToString v end = Ok s')
    as [s' Hs'] by (destruct v; eauto).
  exists s'. unfold set_textContent. rewrite Hs'. reflexivity.
Qed.

Lemma run_get_value {B} id (k : string -> M B) w :
  (get_value (Some id) ≫= k) w = k (default "" (el_value <$> page w !! id)) w.
Proof. reflexivity. Qed.

Lemma run_console_log {B} tag v (k : unit -> M B) w :
  (console_log tag v ≫= k) w = k tt (log_console tag v w).
Proof. reflexivity. Qed.

Lemma run_progress id pct w :
  progress (Some id) pct w
  = (with_page (alter (with_width (Number_toString (clamp pct) ++ "%")) id) w, Ok tt).
Proof. unfold progress. rewrite Math_clamp. reflexivity. Qed.

Lemma run_progress_bind {B} id pct (k : unit -> M B) w :
  (progress (Some id) pct ≫= k) w
  = k tt (with_page (alter (with_width (Number_toString (clamp pct) ++ "%")) id) w).
Proof. unfold mbind, M_bind. now rewrite run_progress. Qed.

(** [$(id)] for an element that was on the page from the start. *)
Ltac run_get :=
  rewrite run_getById by (repeat apply present_alter; assumption); cbv beta.

(** Reading [id] on a page where a chain of other elements was altered. *)
Ltac lookup_altered :=
  repeat first [rewrite lookup_alter_eq | rewrite lookup_alter_ne by discriminate].

(** ** [progress] *)

(** C8. For a bar on the page and a numeric [pct] (any Number but NaN),
    [progress] sets the width of the bar to the clamp of [pct] to
    [[0, 100]], printed as a percentage, and touches no other element: the
    clamp lies between 0 and 100 and is [pct] itself strictly inside; 150
    gives the width [100%] and -20 the width [0%]. *)
Theorem progress_clamps (w : World) (bar : string) (pct : JsNum) :
  present w bar -> pct <> NaN ->
  exists w',
    progress (Some bar) pct w = (w', Ok tt)
    /\ el_width <$> page w' !! bar = Some (Number_toString (clamp pct) ++ "%")
    /\ in_range (clamp pct)
    /\ (forall neg s e, pct = Dec neg s e ->
          (0 < num_value neg s e < 100)%Q -> clamp pct = pct)
    /\ (pct = num_of_Z 150 -> el_width <$> page w' !! bar = Some "100%")
    /\ (pct = num_of_Z (-20) -> el_width <$> page w' !! bar = Some "0%")
    /\ (forall id, id <> bar -> page w' !! id = page w !! id).
Proof.
  intros [e He] Hn. eexists. split; [apply run_progress|]. cbn [page with_page].
  rewrite lookup_alter_eq, He. repeat split.
  - now apply clamp_in_range.
  - intros neg s e' -> Hv. now apply clamp_inside.
  - intros ->. reflexivity.
  - intros ->. reflexivity.
  - intros id Hid. now rewrite lookup_alter_ne.
Qed.

Lemma progress_clamps_witness :
  present demo_world "emailBar" /\ num_of_Z 150 <> NaN
  /\ exists w', progress (Some "emailBar") (num_of_Z 150) demo_world = (w', Ok tt)
       /\ el_width <$> page w' !! "emailBar" = Some "100%".
Proof.
  assert (present demo_world "emailBar") as H by (vm_compute; eauto).
  assert (num_of_Z 150 <> NaN) as Hn by discriminate.
  split; [exact H|]. split; [exact Hn|].
  destruct (progress_clamps demo_world "emailBar" (num_of_Z 150) H Hn)
    as (w' & Hrun & _ & _ & _ & H150 & _).
  exists w'. split; [exact Hrun | exact (H150 eq_refl)].
Defined.

(** NaN is not clamped: the width is set to [NaN%]. *)
Lemma progress_NaN w bar :
  progress (Some bar) NaN w = (with_page (alter (with_width "NaN%") bar) w, Ok tt).
Proof. reflexivity. Qed.

(** Without a bar nothing happens. *)
Lemma progress_null pct w : progress None pct w = (w, Ok tt).
Proof. reflexivity. Qed.

(** ** The clear-filter handler *)

Lemma clearFilters_run w :
  Forall (present w) clear_ids -> clearFilters w = (cleared w, Ok tt).
Proof.
  intros H. unfold clear_ids in H. repeat (apply Forall_cons in H as [? H]).
  unfold clearFilters.
  run_get. rewrite run_set_value.
  run_get. rewrite run_set_value.
  run_get. rewrite run_set_value.
  run_get. rewrite run_set_value.
  run_get. rewrite run_set_innerHTML.
  run_get. rewrite run_set_text.
  run_get. rewrite run_set_text.
  run_get. rewrite run_set_text.
  run_get. rewrite run_progress. reflexivity.
Qed.

Lemma page_cleared w :
  page (cleared w)
  = alter (with_width "0%") "emailBar"
      (alter (with_content (Text dash)) "emailTiming"
        (alter (with_content (Text ("rows: " ++ dash))) "emailCount"
          (alter (with_content (Text dash)) "emailRaw"
            (alter (with_content (Markup dash)) "emailTable"
              (alter (with_value "") "isStarredSelect"
                (alter (with_value "") "isReadSelect"
                  (alter (with_value "") "fromEmailInput"
                    (alter (with_value "") "subjectInput" (page w))))))))).
Proof. reflexivity. Qed.

(** C9. On a page that has the four filter controls, the four email
    regions and the email bar, the clear-filter handler returns with the
    four controls blank, the table, raw payload, row count and timing
    regions on their placeholders, and the bar at [0%]; it adds no request
    and no timer, and every other element of the page is as it was. *)
Theorem clearFilters_resets (w : World) :
  Forall (present w) clear_ids ->
  exists w',
    clearFilters w = (w', Ok tt)
    /\ (forall id,
          In id ["subjectInput"; "fromEmailInput"; "isReadSelect"; "isStarredSelect"] ->
          el_value <$> page w' !! id = Some "")
    /\ el_content <$> page w' !! "emailTable" = Some (Markup dash)
    /\ el_content <$> page w' !! "emailRaw" = Some (Text dash)
    /\ el_content <$> page w' !! "emailCount" = Some (Text ("rows: " ++ dash))
    /\ el_content <$> page w' !! "emailTiming" = Some (Text dash)
    /\ el_width <$> page w' !! "emailBar" = Some "0%"
    /\ requests w' = requests w
    /\ timers w' = timers w
    /\ (forall id, ~ In id clear_ids -> page w' !! id = page w !! id).
Proof.
  intros H. exists (cleared w). split; [now apply clearFilters_run|].
  unfold clear_ids in H.
  repeat (let Hp := fresh in apply Forall_cons in H as [Hp H]; destruct Hp as [? ?]).
  rewrite page_cleared. repeat split.
  - intros id [<-|[<-|[<-|[<-|[]]]]]; lookup_altered;
      match goal with E : page w !! _ = Some _ |- _ => rewrite E end; reflexivity.
  - lookup_altered. match goal with E : page w !! "emailTable" = _ |- _ => rewrite E end.
    reflexivity.
  - lookup_altered. match goal with E : page w !! "emailRaw" = _ |- _ => rewrite E end.
    reflexivity.
  - lookup_altered. match goal with E : page w !! "emailCount" = _ |- _ => rewrite E end.
    reflexivity.
  - lookup_altered. match goal with E : page w !! "emailTiming" = _ |- _ => rewrite E end.
    reflexivity.
  - lookup_altered. match goal with E : page w !! "emailBar" = _ |- _ => rewrite E end.
    reflexivity.
  - intros id Hid. unfold clear_ids in Hid. cbn [In] in Hid.
    rewrite !lookup_alter_ne by (intros <-; tauto). reflexivity.
Qed.

Lemma clearFilters_resets_witness :
  Forall (present demo_world) clear_ids
  /\ exists w', clearFilters demo_world = (w', Ok tt)
       /\ el_width <$> page w' !! "emailBar" = Some "0%"
       /\ requests w' = [].
Proof.
  assert (Forall (present demo_world) clear_ids) as H
    by (repeat constructor; vm_compute; eauto).
  split; [exact H|].
  destruct (clearFilters_resets demo_world H) as (w' & Hrun & _ & _ & _ & _ & _ & Hbar & Hreq & _).
  exists w'. repeat split; assumption.
Defined.

(** ** Computations that fetch nothing *)

Create HintDb quiet.

Lemma quiet_ret {A} (a : A) : quiet (mret a).
Proof. intros w. reflexivity. Qed.

Lemma quiet_bind {A B} (m : M A) (k : A -> M B) :
  quiet m -> (forall a, quiet (k a)) -> quiet (m ≫= k).
Proof.
  intros Hm Hk w. unfold mbind, M_bind. specialize (Hm w).
  destruct (m w) as [w' [a|e]]; cbn [fst] in *; [now rewrite Hk | exact Hm].
Qed.

Lemma quiet_lift {A} (r : Result A) : quiet (lift r).
Proof. intros w. reflexivity. Qed.

Lemma quiet_getById id : quiet (getById id).
Proof. intros w. reflexivity. Qed.

Lemma quiet_update el f : quiet (update el f).
Proof. intros w. destruct el; reflexivity. Qed.

Lemma quiet_get_value el : quiet (get_value el).
Proof. intros w. destruct el; reflexivity. Qed.

Lemma quiet_console_log tag v : quiet (console_log tag v).
Proof. intros w. reflexivity. Qed.

Lemma quiet_setTimeout t : quiet (setTimeout t).
Proof. intros w. reflexivity. Qed.

Lemma quiet_addEventListener el h : quiet (addEventListener el h).
Proof. intros w. destruct el; reflexivity. Qed.

#[local] Hint Resolve quiet_ret quiet_lift quiet_getById quiet_update quiet_get_value
  quiet_console_log quiet_setTimeout quiet_addEventListener : quiet.
#[local] Hint Extern 2 (quiet (_ ≫= _)) => apply quiet_bind; [|intros] : quiet.

Lemma quiet_set_value el s : quiet (set_value el s).
Proof. apply quiet_update. Qed.

Lemma quiet_set_width el s : quiet (set_width el s).
Proof. apply quiet_update. Qed.

Lemma quiet_set_innerHTML el s : quiet (set_innerHTML el s).
Proof. apply quiet_update. Qed.

Lemma quiet_set_textContent el v : quiet (set_textContent el v).
Proof. unfold set_textContent. apply quiet_bind; [apply quiet_lift | intros; apply quiet_update]. Qed.

#[local] Hint Resolve quiet_set_value quiet_set_width quiet_set_innerHTML
  quiet_set_textContent : quiet.

Lemma quiet_progress el pct : quiet (progress el pct).
Proof. destruct el; unfold progress; auto with quiet. Qed.

Lemma quiet_renderPreviewTable el rows maxRows : quiet (renderPreviewTable el rows maxRows).
Proof. unfold renderPreviewTable. auto 10 with quiet. Qed.

Lemma quiet_renderKV user : quiet (renderKV user).
Proof. unfold renderKV. auto 20 with quiet. Qed.

#[local] Hint Resolve quiet_progress quiet_renderPreviewTable quiet_renderKV : quiet.

Lemma quiet_clearFilters : quiet clearFilters.
Proof. unfold clearFilters. auto 40 with quiet. Qed.

Lemma quiet_emailsRequest : quiet emailsRequest.
Proof. unfold emailsRequest. auto 40 with quiet. Qed.

Lemma quiet_wireEvents : quiet wireEvents.
Proof. unfold wireEvents. auto 20 with quiet. Qed.

(** ** The loaders, for any backend *)

(** What [emailsRequest] returns: the URL of the query of the four
    controls. *)
Lemma emailsRequest_run w subject fromEmail isRead isStarred :
  el_value <$> page w !! "subjectInput" = Some subject ->
  el_value <$> page w !! "fromEmailInput" = Some fromEmail ->
  el_value <$> page w !! "isReadSelect" = Some isRead ->
  el_value <$> page w !! "isStarredSelect" = Some isStarred ->
  exists w',
    emailsRequest w
    = (w', Ok (emailsUrl (emailQuery (trim subject) (trim fromEmail) isRead isStarred)))
    /\ requests w' = requests w.
Proof.
  intros H1 H2 H3 H4. unfold emailsRequest.
  rewrite run_getById by (eapply present_value; eassumption). rewrite run_get_value, H1.
  rewrite run_getById by (eapply present_value; eassumption). rewrite run_get_value, H2.
  rewrite run_getById by (eapply present_value; eassumption). rewrite run_get_value, H3.
  rewrite run_getById by (eapply present_value; eassumption). rewrite run_get_value, H4.
  cbn [default]. rewrite run_getById_any.
  destruct (page w !! "emailBar").
  - rewrite run_progress_bind. eexists. split; reflexivity.
  - eexists. split; reflexivity.
Qed.

Lemma renderKV_jane w :
  present w "meUser" -> present w "meDisplay" -> present w "meActive" ->
  renderKV jane w
  = (with_page (fun p => alter (with_content (Text dash)) "meActive"
                           (alter (with_content (Text "Jane Doe")) "meDisplay"
                             (alter (with_content (Text dash)) "meUser" p))) w, Ok tt).
Proof.
  intros H1 H2 H3. unfold renderKV. cbv zeta.
  match goal with |- (lift ?r ≫= _) _ = _ =>
    replace r with (@Ok JsVal (JStr "Jane Doe")) by reflexivity end.
  rewrite run_lift.
  match goal with |- (lift ?r ≫= _) _ = _ =>
    replace r with (@Ok string dash) by reflexivity end.
  rewrite run_lift.
  run_get.
  change (opt_get jane "userName"
          ||> opt_get (opt_get (opt_get jane "emails") "0") "value" ||> JStr dash)
    with (JStr dash).
  rewrite run_set_text. run_get. rewrite run_set_text. run_get. reflexivity.
Qed.

Section Backend.

Variable fetch : string -> option Response.
Variable JSON_parse : string -> Result JsVal.
Variable JSON_stringify : JsVal -> option string.
Variable toLocaleString : JsNum -> string.

Lemma fetchJSON_parsed url r data w :
  fetch url = Some r -> JSON_parse (body r) = Ok data ->
  fetchJSON fetch JSON_parse url w = (log_request url w, Ok data).
Proof.
  intros Hf Hp. unfold fetchJSON, request, mbind, M_bind. rewrite Hf, Hp. reflexivity.
Qed.

(** C4. When the body of the response is not JSON ([JSON.parse] throws),
    [fetchJSON] returns the record with the status code under [status]
    and the body as it came under [text], and nothing else; it does not
    throw. *)
Theorem fetchJSON_fallback url r e w :
  fetch url = Some r -> JSON_parse (body r) = Throw e ->
  fetchJSON fetch JSON_parse url w = (log_request url w, Ok (fallback r))
  /\ get (fallback r) "status" = JNum (num_of_Z (Z.of_N (status r)))
  /\ get (fallback r) "text" = JStr (body r)
  /\ Object_keys (fallback r) = Ok ["status"; "text"].
Proof.
  intros Hf Hp. repeat split.
  unfold fetchJSON, request, mbind, M_bind. rewrite Hf, Hp. reflexivity.
Qed.

(** [fetchJSON] adds its URL to the requests, and returns whenever the
    backend answers. *)
Lemma fetchJSON_requests url w :
  requests (fst (fetchJSON fetch JSON_parse url w)) = (requests w ++ [url])%list.
Proof.
  unfold fetchJSON, request, mbind, M_bind.
  destruct (fetch url); [destruct (JSON_parse _)|]; reflexivity.
Qed.

(** C3, as amended.  When the response of [/api/me] parses to data whose
    [current_user] is [{name: {givenName: "Jane", familyName: "Doe"}}],
    with no [displayName] and no [userName], [loadUser] shows the display
    name [Jane Doe] and the dash for the user name. *)
Theorem loadUser_jane (w : World) (r : Response) (data : JsVal) :
  fetch "/api/me" = Some r ->
  JSON_parse (body r) = Ok data ->
  opt_get data "current_user" = jane ->
  printable (opt_get data "mode") = true ->
  Forall (present w) ["meMode"; "meRaw"; "meUser"; "meDisplay"; "meActive"] ->
  exists w',
    loadUser fetch JSON_parse JSON_stringify w = (w', Ok tt)
    /\ el_content <$> page w' !! "meDisplay" = Some (Text "Jane Doe")
    /\ el_content <$> page w' !! "meUser" = Some (Text dash)
    /\ requests w' = (requests w ++ ["/api/me"])%list.
Proof.
  intros Hf Hp Hu Hm H.
  repeat (let Hx := fresh in apply Forall_cons in H as [Hx H]).
  unfold loadUser.
  rewrite (run_bind _ _ _ _ _ (fetchJSON_parsed _ _ _ w Hf Hp)).
  rewrite run_console_log.
  rewrite run_getById by assumption.
  destruct (run_set_textContent "meMode" (opt_get data "mode" ?? JStr dash)
              (fun _ => meRaw ← getById "meRaw";
                        set_textContent meRaw (stringify JSON_stringify data);;
                        renderKV (opt_get data "current_user"))
              (log_console "[me]" data (log_request "/api/me" w))) as [s Hs].
  { destruct (opt_get data "mode"); try exact Hm; reflexivity. }
  rewrite Hs. clear Hs.
  rewrite run_getById by (apply present_alter; assumption).
  destruct (run_set_textContent "meRaw" (stringify JSON_stringify data)
              (fun _ => renderKV (opt_get data "current_user"))
              (with_page (alter (with_content (Text s)) "meMode")
                 (log_console "[me]" data (log_request "/api/me" w)))) as [t Ht].
  { unfold stringify. destruct (JSON_stringify data); reflexivity. }
  rewrite Ht. clear Ht. rewrite Hu.
  rewrite renderKV_jane by (repeat apply present_alter; assumption).
  eexists. split; [reflexivity|]. cbn [page with_page requests log_console log_request].
  destruct H2 as [e2 He2], H3 as [e3 He3].
  repeat split; lookup_altered.
  - change (page (log_console "[me]" data (log_request "/api/me" w))) with (page w).
    now rewrite He3.
  - change (page (log_console "[me]" data (log_request "/api/me" w))) with (page w).
    now rewrite He2.
Qed.

Lemma quiet_showEmails data :
  quiet (showEmails JSON_stringify toLocaleString data).
Proof. unfold showEmails. auto 60 with quiet. Qed.

(** The one request of [loadEmails] is for the URL [emailsRequest]
    builds. *)
Lemma loadEmails_requests w w' url :
  emailsRequest w = (w', Ok url) ->
  requests (fst (loadEmails fetch JSON_parse JSON_stringify toLocaleString w))
  = (requests w ++ [url])%list.
Proof.
  intros H. unfold loadEmails. rewrite (run_bind _ _ _ _ _ H).
  pose proof (quiet_emailsRequest w) as Hq. rewrite H in Hq. cbn [fst] in Hq.
  rewrite <- Hq, <- fetchJSON_requests.
  unfold mbind at 1, M_bind at 1.
  destruct (fetchJSON fetch JSON_parse url w') as [w1 [data|e]]; [|reflexivity].
  apply quiet_showEmails.
Qed.

(** A click on the clear control runs [clearFilters]. *)
Lemma handler_clear :
  handler fetch JSON_parse JSON_stringify toLocaleString OnClearFilters = clearFilters.
Proof. reflexivity. Qed.

End Backend.

(** ** The loaders on examples *)

Lemma fetchJSON_fallback_witness :
  Reference.JSON_parse "not json" = Throw SyntaxError
  /\ fetchJSON not_json_server Reference.JSON_parse "/api/me" demo_world
     = (log_request "/api/me" demo_world,
        Ok (JObj [("status", JNum (num_of_Z 200)); ("text", JStr "not json")])).
Proof.
  split; [reflexivity|].
  apply (fetchJSON_fallback not_json_server Reference.JSON_parse "/api/me"
           {| status := 200; body := "not json" |} SyntaxError demo_world); reflexivity.
Defined.

Lemma loadUser_jane_witness :
  Reference.JSON_parse nested_body
  = Ok (JObj [("mode", JStr "demo"); ("current_user", jane)])
  /\ exists w',
       loadUser (server nested_body) Reference.JSON_parse Reference.JSON_stringify demo_world
       = (w', Ok tt)
       /\ el_content <$> page w' !! "meDisplay" = Some (Text "Jane Doe")
       /\ el_content <$> page w' !! "meUser" = Some (Text dash).
Proof.
  split; [reflexivity|].
  destruct (loadUser_jane (server nested_body) Reference.JSON_parse Reference.JSON_stringify
              demo_world {| status := 200; body := nested_body |}
              (JObj [("mode", JStr "demo"); ("current_user", jane)]))
    as (w' & Hrun & Hd & Hu & _); try reflexivity.
  - repeat constructor; vm_compute; eauto.
  - exists w'. repeat split; assumption.
Defined.

(** C3, as stated.  With [givenName] and [familyName] directly under
    [current_user], [renderKV] finds no [name]: the display name shown is
    the dash, not [Jane Doe]. *)
Lemma loadUser_flat_names :
  Reference.JSON_parse flat_body
  = Ok (JObj [("mode", JStr "demo"); ("current_user", jane_flat)])
  /\ get jane_flat "displayName" = JUndefined
  /\ get jane_flat "userName" = JUndefined
  /\ exists w',
       loadUser (server flat_body) Reference.JSON_parse Reference.JSON_stringify demo_world
       = (w', Ok tt)
       /\ el_content <$> page w' !! "meDisplay" = Some (Text dash)
       /\ el_content <$> page w' !! "meDisplay" <> Some (Text "Jane Doe").
Proof.
  split; [reflexivity|]. split; [reflexivity|]. split; [reflexivity|].
  eexists. split; [vm_compute; reflexivity|]. split; [vm_compute; reflexivity|].
  vm_compute. discriminate.
Qed.

(** On the demo page [wireEvents] registers the three listeners. *)
Lemma wireEvents_demo :
  exists w', wireEvents demo_world = (w', Ok tt)
    /\ listeners w'
       = [("runEmails", OnLoadEmails); ("clearFilters", OnClearFilters);
          ("refreshPing", OnLoadPing)]
    /\ page w' = page demo_world.
Proof. eexists. split; [vm_compute; reflexivity|]. split; reflexivity. Qed.

(** ** The query of the filtered-email loader *)

(** C5. With the subject and from-email controls blank (nothing but white
    space, which [trim] removes) and the two selectors on their empty
    value, the query holds the single parameter [limit=100], none of
    [subject], [from_email], [is_read], [is_starred]; [loadEmails]
    requests [/api/emails?limit=100] from any backend. *)
Theorem emailQuery_blank (w : World) (subject fromEmail : string) :
  el_value <$> page w !! "subjectInput" = Some subject ->
  el_value <$> page w !! "fromEmailInput" = Some fromEmail ->
  el_value <$> page w !! "isReadSelect" = Some "" ->
  el_value <$> page w !! "isStarredSelect" = Some "" ->
  trim subject = "" -> trim fromEmail = "" ->
  emailQuery (trim subject) (trim fromEmail) "" "" = [("limit", "100")]
  /\ URLSearchParams_toString (emailQuery (trim subject) (trim fromEmail) "" "") = "limit=100"
  /\ (exists w', emailsRequest w = (w', Ok "/api/emails?limit=100")
                 /\ requests w' = requests w)
  /\ (forall fetch JSON_parse JSON_stringify toLocaleString,
        requests (fst (loadEmails fetch JSON_parse JSON_stringify toLocaleString w))
        = (requests w ++ ["/api/emails?limit=100"])%list).
Proof.
  intros H1 H2 H3 H4 Hs Hf.
  destruct (emailsRequest_run w _ _ _ _ H1 H2 H3 H4) as (w' & Hrun & Hreq).
  rewrite Hs, Hf in *. repeat split.
  - exists w'. split; assumption.
  - intros. now apply loadEmails_requests with (w' := w').
Qed.

Lemma emailQuery_blank_witness :
  el_value <$> page demo_world !! "subjectInput" = Some ""
  /\ trim "" = ""
  /\ exists w', emailsRequest demo_world = (w', Ok "/api/emails?limit=100")
                /\ requests w' = requests demo_world.
Proof.
  split; [reflexivity|]. split; [reflexivity|].
  apply (emailQuery_blank demo_world "" ""); reflexivity.
Defined.

(** C6. With [Invoice] as subject (white space around it trimmed), [true]
    selected for is-read and the other two controls blank, the query
    string is [subject=Invoice&is_read=true&limit=100], its parameters in
    the order they were set, with no [from_email] and no [is_starred]. *)
Theorem emailQuery_subject_read (w : World) (subject fromEmail : string) :
  el_value <$> page w !! "subjectInput" = Some subject ->
  el_value <$> page w !! "fromEmailInput" = Some fromEmail ->
  el_value <$> page w !! "isReadSelect" = Some "true" ->
  el_value <$> page w !! "isStarredSelect" = Some "" ->
  trim subject = "Invoice" -> trim fromEmail = "" ->
  emailQuery (trim subject) (trim fromEmail) "true" ""
  = [("subject", "Invoice"); ("is_read", "true"); ("limit", "100")]
  /\ URLSearchParams_toString (emailQuery (trim subject) (trim fromEmail) "true" "")
     = "subject=Invoice&is_read=true&limit=100"
  /\ (exists w',
        emailsRequest w = (w', Ok "/api/emails?subject=Invoice&is_read=true&limit=100")
        /\ requests w' = requests w)
  /\ (forall fetch JSON_parse JSON_stringify toLocaleString,
        requests (fst (loadEmails fetch JSON_parse JSON_stringify toLocaleString w))
        = (requests w ++ ["/api/emails?subject=Invoice&is_read=true&limit=100"])%list).
Proof.
  intros H1 H2 H3 H4 Hs Hf.
  destruct (emailsRequest_run w _ _ _ _ H1 H2 H3 H4) as (w' & Hrun & Hreq).
  rewrite Hs, Hf in *. repeat split.
  - exists w'. split; assumption.
  - intros. now apply loadEmails_requests with (w' := w').
Qed.

Lemma emailQuery_subject_read_witness :
  el_value <$> page invoice_world !! "subjectInput" = Some "  Invoice "
  /\ trim "  Invoice " = "Invoice"
  /\ exists w',
       emailsRequest invoice_world
       = (w', Ok "/api/emails?subject=Invoice&is_read=true&limit=100")
       /\ requests w' = requests invoice_world.
Proof.
  split; [reflexivity|]. split; [reflexivity|].
  apply (emailQuery_subject_read invoice_world "  Invoice " ""); reflexivity.
Defined.

(** * Further properties *)

(** ** [renderKV] on the fields of a user *)

Lemma text_truthy v :
  text_or_absent v = true -> ToBoolean v = non_empty (text_of v).
Proof. destruct v as [| | | |s| | | |]; try discriminate; try reflexivity. now destruct s. Qed.

Lemma text_nonempty v :
  text_or_absent v = true -> non_empty (text_of v) = true -> v = JStr (text_of v).
Proof. destruct v; try discriminate; reflexivity. Qed.

Lemma opt_get_bool user k b : opt_get user k = JBool b -> get_prop user k = Ok (JBool b).
Proof. destruct user; try discriminate; cbn [opt_get get_prop]; now intros ->. Qed.

(** The text [renderKV] computes for the [active] region. *)
Lemma active_run user :
  match opt_get user "active" with
  | JBool _ => a ← get_prop user "active"; ToString a
  | _ => Ok dash
  end = Ok (active_text (opt_get user "active")).
Proof.
  destruct (opt_get user "active") as [| |b| | | | | |] eqn:E; try reflexivity.
  rewrite (opt_get_bool _ _ _ E). now destruct b.
Qed.

Lemma userName_run uN mail :
  text_or_absent uN = true -> text_or_absent mail = true ->
  uN ||> mail ||> JStr dash = JStr (first_nonempty [text_of uN; text_of mail; dash]).
Proof.
  intros Hu Hm. unfold or_else. cbn [first_nonempty].
  rewrite (text_truthy _ Hu). destruct (non_empty (text_of uN)) eqn:Eu.
  - rewrite (text_truthy _ Hu), Eu. now apply text_nonempty.
  - rewrite (text_truthy _ Hm). destruct (non_empty (text_of mail)) eqn:Em.
    + now apply text_nonempty.
    + reflexivity.
Qed.

Lemma join_names g f :
  text_or_absent g = true -> text_or_absent f = true ->
  Array_join " " (List.filter ToBoolean [g; f])
  = Ok (String.concat " " (List.filter non_empty [text_of g; text_of f])).
Proof.
  intros Hg Hf. cbn [List.filter].
  rewrite (text_truthy _ Hg), (text_truthy _ Hf).
  destruct (non_empty (text_of g)) eqn:Eg, (non_empty (text_of f)) eqn:Ef;
    try rewrite (text_nonempty _ Hg Eg); try rewrite (text_nonempty _ Hf Ef); reflexivity.
Qed.

Lemma display_run dN g f :
  text_or_absent dN = true -> text_or_absent g = true -> text_or_absent f = true ->
  (if ToBoolean dN then Ok dN
   else joined ← Array_join " " (List.filter ToBoolean [g; f]);
        Ok (JStr joined ||> JStr dash))
  = Ok (JStr (first_nonempty
                [text_of dN;
                 String.concat " " (List.filter non_empty [text_of g; text_of f]);
                 dash])).
Proof.
  intros Hd Hg Hf. cbn [first_nonempty]. rewrite (text_truthy _ Hd).
  destruct (non_empty (text_of dN)) eqn:Ed.
  - now rewrite <- (text_nonempty _ Hd Ed).
  - rewrite (join_names _ _ Hg Hf). unfold mbind, Result_bind, or_else.
    cbn [ToBoolean]. 
    destruct (String.concat " " _) as [|c s]; reflexivity.
Qed.

(** X1. For a user whose [userName], first email, [displayName] and names
    are texts or absent, [renderKV] returns and shows: as user name the
    first of [userName] and the first email that is not empty, as display
    name the first of [displayName] and the names joined by a space
    (empty ones left out) that is not empty, the dash when there is none;
    as [active] the words [true] and [false] for the two booleans and
    the dash for anything else.  No other element changes. *)
Theorem renderKV_fields (user : JsVal) (w : World) :
  text_or_absent (opt_get user "userName") = true ->
  text_or_absent (opt_get (opt_get (opt_get user "emails") "0") "value") = true ->
  text_or_absent (opt_get user "displayName") = true ->
  text_or_absent (opt_get (opt_get user "name") "givenName") = true ->
  text_or_absent (opt_get (opt_get user "name") "familyName") = true ->
  Forall (present w) identity_ids ->
  exists w',
    renderKV user w = (w', Ok tt)
    /\ el_content <$> page w' !! "meUser"
       = Some (Text (first_nonempty
                       [text_of (opt_get user "userName");
                        text_of (opt_get (opt_get (opt_get user "emails") "0") "value");
                        dash]))
    /\ el_content <$> page w' !! "meDisplay"
       = Some (Text (first_nonempty
                       [text_of (opt_get user "displayName");
                        String.concat " "
                          (List.filter non_empty
                             [text_of (opt_get (opt_get user "name") "givenName");
                              text_of (opt_get (opt_get user "name") "familyName")]);
                        dash]))
    /\ el_content <$> page w' !! "meActive"
       = Some (Text (active_text (opt_get user "active")))
    /\ (forall id, ~ In id identity_ids -> page w' !! id = page w !! id).
Proof.
  intros Hu Hm Hd Hg Hf H. unfold identity_ids in *.
  repeat (let Hp := fresh in apply Forall_cons in H as [Hp H]).
  unfold renderKV. cbv zeta.
  rewrite (display_run _ _ _ Hd Hg Hf), run_lift, active_run, run_lift.
  rewrite (userName_run _ _ Hu Hm).
  run_get. rewrite run_set_text. run_get. rewrite run_set_text. run_get.
  eexists. split; [reflexivity|]. cbn [page with_page].
  destruct H0 as [e0 E0], H1 as [e1 E1], H2 as [e2 E2].
  repeat split.
  - lookup_altered. now rewrite E0.
  - lookup_altered. now rewrite E1.
  - lookup_altered. now rewrite E2.
  - intros id Hid. cbn [In] in Hid. rewrite !lookup_alter_ne by (intros <-; tauto). reflexivity.
Qed.

Lemma renderKV_fields_witness :
  Forall (present demo_world) identity_ids
  /\ exists w',
       renderKV jane_mail demo_world = (w', Ok tt)
       /\ el_content <$> page w' !! "meUser" = Some (Text "jane@example.org")
       /\ el_content <$> page w' !! "meDisplay" = Some (Text "Jane")
       /\ el_content <$> page w' !! "meActive" = Some (Text "false").
Proof.
  assert (Forall (present demo_world) identity_ids) as H
    by (repeat constructor; vm_compute; eauto).
  split; [exact H|].
  destruct (renderKV_fields jane_mail demo_world) as (w' & Hrun & Hu & Hd & Ha & _);
    try reflexivity; [exact H|].
  exists w'. repeat split; assumption.
Defined.

(** ** The tags of the preview table *)

Lemma counts_eq pat s n m : counts pat s n -> n = m -> counts pat s m.
Proof. now intros H <-. Qed.

Lemma counts_escaped_gt s : escaped s = true -> counts ">" s 0.
Proof.
  intros Hs rest. induction s as [|c s IH]; [reflexivity|].
  cbn [escaped] in Hs. rewrite !andb_true_iff, !negb_true_iff in Hs.
  destruct Hs as [[[[[_ H] _] _] _] Hs].
  cbn [String.append occurrences startsWith].
  rewrite (Ascii.eqb_sym ">" c), H. cbn [andb]. exact (IH Hs).
Qed.

Lemma counts_escaped_quot s : escaped s = true -> counts quot s 0.
Proof.
  intros Hs rest. induction s as [|c s IH]; [reflexivity|].
  cbn [escaped] in Hs. rewrite !andb_true_iff, !negb_true_iff in Hs.
  destruct Hs as [[[[[_ _] H] _] _] Hs].
  unfold quot. cbn [String.append occurrences startsWith].
  rewrite (Ascii.eqb_sym "034" c), H. cbn [andb]. exact (IH Hs).
Qed.

Lemma counts_escaped_apostrophe s : escaped s = true -> counts "'" s 0.
Proof.
  intros Hs rest. induction s as [|c s IH]; [reflexivity|].
  cbn [escaped] in Hs. rewrite !andb_true_iff, !negb_true_iff in Hs.
  destruct Hs as [[[[[_ _] _] H] _] Hs].
  cbn [String.append occurrences startsWith].
  rewrite (Ascii.eqb_sym "'" c), H. cbn [andb]. exact (IH Hs).
Qed.

(** The shape of a row of a record: a cell per column, each holding an
    escaped text. *)
Lemma tr_shape cols row :
  is_record row = true ->
  exists es, tr cols row = Ok (row_of es)
    /\ length es = length cols /\ Forall (fun e => escaped e = true) es.
Proof.
  intros Hr.
  assert (exists es, mapM (td row) cols = Ok (map cell es)
            /\ length es = length cols /\ Forall (fun e => escaped e = true) es)
    as (es & Hes & Hlen & Hesc).
  { induction cols as [|c cols (es & Hes & Hlen & Hesc)].
    - exists []. repeat split. constructor.
    - destruct (td_record row c Hr) as (e & He & Hescaped).
      exists (e :: es). cbn [mapM]. rewrite He. unfold mbind at 1, Result_bind at 1.
      rewrite Hes. cbn. rewrite Hlen. repeat split. now constructor. }
  exists es. unfold tr. rewrite Hes. repeat split; assumption.
Qed.

Lemma trs_shape cols sample :
  Forall (fun row => is_record row = true) sample ->
  exists ess, mapM (tr cols) sample = Ok (map row_of ess)
    /\ length ess = length sample
    /\ Forall (fun es => length es = length cols
                         /\ Forall (fun e => escaped e = true) es) ess.
Proof.
  induction 1 as [|row sample Hr Hs (ess & Hess & Hlen & Hshape)].
  - exists []. repeat split. constructor.
  - destruct (tr_shape cols row Hr) as (es & Hes & Hl & Hesc).
    exists (es :: ess). cbn [mapM]. rewrite Hes. unfold mbind at 1, Result_bind at 1.
    rewrite Hess. cbn. rewrite Hlen. repeat split. now constructor.
Qed.

(** The shape of the table for records. *)
Lemma preview_shape items maxRows :
  items <> [] ->
  Forall (fun row => is_record row = true) items ->
  (0 <= default 10%Z maxRows)%Z ->
  let m := Nat.min (length items) (Z.to_nat (default 10%Z maxRows)) in
  let cols := first_seen (flat_map record_keys (take m items)) in
  exists ess,
    previewHTML (JArr items) maxRows = Ok (table_of cols ess)
    /\ length ess = m
    /\ Forall (fun es => length es = length cols /\ Forall (fun e => escaped e = true) es) ess.
Proof.
  intros Hne Hrec Hmax m cols.
  assert (Forall (fun row => is_record row = true) (take m items)) as Hsample
    by (now apply Forall_take).
  assert (length (take m items) = m) as Hm by (rewrite length_take; lia).
  destruct (trs_shape cols _ Hsample) as (ess & Hess & Hlen & Hshape).
  exists ess. split; [|split; [congruence | exact Hshape]].
  rewrite previewHTML_nonempty by assumption. cbv zeta.
  rewrite slice0_count by assumption. fold m.
  rewrite (reduce_keys_first_seen _ Hsample). fold cols.
  unfold mbind at 1, Result_bind at 1.
  rewrite (mapM_Ok th (fun c => "<th>" ++ escapeHtml c ++ "</th>"))
    by (apply List.Forall_forall; intros; apply th_Ok).
  unfold mbind at 1, Result_bind at 1. rewrite Hess.
  unfold mbind, Result_bind, table_of, header. now rewrite !str_app_assoc.
Qed.

Section Tags.

Variable pat : string.
Variable a : nat.
Hypothesis escaped_none : forall s, escaped s = true -> counts pat s 0.
Hypothesis tag_each :
  Forall (fun t => counts pat t a)
    ["<table>"; "</table>"; "<thead>"; "</thead>"; "<tbody>"; "</tbody>";
     "<tr>"; "</tr>"; "<th>"; "</th>"; "<td>"; "</td>"].

Lemma counts_tag t :
  In t ["<table>"; "</table>"; "<thead>"; "</thead>"; "<tbody>"; "</tbody>";
        "<tr>"; "</tr>"; "<th>"; "</th>"; "<td>"; "</td>"] ->
  counts pat t a.
Proof. intros H. exact (proj1 (List.Forall_forall _ _) tag_each t H). Qed.

Ltac tag := apply counts_tag; cbn [In]; tauto.

Lemma counts_cells es :
  Forall (fun e => escaped e = true) es ->
  counts pat (String.concat "" (map cell es)) (length es * (2 * a)).
Proof.
  intros H. rewrite <- (length_map cell). apply counts_concat.
  apply List.Forall_forall. intros s Hs. apply in_map_iff in Hs as (e & <- & He).
  rewrite List.Forall_forall in H. unfold cell.
  apply (counts_eq _ _ (a + (0 + a))); [|lia].
  apply counts_app; [tag|]. apply counts_app; [now apply escaped_none, H | tag].
Qed.

Lemma counts_row c es :
  length es = c -> Forall (fun e => escaped e = true) es ->
  counts pat (row_of es) (a * (2 + 2 * c)).
Proof.
  intros <- H. unfold row_of.
  apply (counts_eq _ _ (a + (length es * (2 * a) + a))); [|lia].
  apply counts_app; [tag|]. apply counts_app; [now apply counts_cells | tag].
Qed.

Lemma counts_header cols : counts pat (header cols) (a * (4 + 2 * length cols)).
Proof.
  unfold header.
  change "<thead><tr>" with ("<thead>" ++ "<tr>").
  change "</tr></thead>" with ("</tr>" ++ "</thead>").
  rewrite !str_app_assoc.
  apply (counts_eq _ _ (a + (a + (length cols * (2 * a) + (a + a))))); [|lia].
  apply counts_app; [tag|]. apply counts_app; [tag|]. apply counts_app.
  - rewrite <- (length_map (fun c => "<th>" ++ escapeHtml c ++ "</th>") cols).
    apply counts_concat. apply List.Forall_forall. intros s Hs.
    apply in_map_iff in Hs as (c & <- & _).
    apply (counts_eq _ _ (a + (0 + a))); [|lia].
    apply counts_app; [tag|].
    apply counts_app; [apply escaped_none, escaped_escapeHtml | tag].
  - apply counts_app; tag.
Qed.

Lemma counts_table cols ess :
  Forall (fun es => length es = length cols /\ Forall (fun e => escaped e = true) es) ess ->
  occurrences pat (table_of cols ess) = a * tag_count (length cols) (length ess).
Proof.
  intros H. apply counts_total. unfold table_of, tag_count.
  change "</tbody></table>" with ("</tbody>" ++ "</table>").
  apply (counts_eq _ _ (a + (a * (4 + 2 * length cols)
                             + (a + (length ess * (a * (2 + 2 * length cols)) + (a + a))))));
    [|lia].
  apply counts_app; [tag|]. apply counts_app; [apply counts_header|].
  apply counts_app; [tag|]. apply counts_app.
  - rewrite <- (length_map row_of ess). apply counts_concat.
    apply List.Forall_forall. intros s Hs. apply in_map_iff in Hs as (es & <- & Hes).
    rewrite List.Forall_forall in H. destruct (H es Hes). now apply counts_row.
  - apply counts_app; tag.
Qed.

End Tags.

(** X2. The table for records holds the tags of the renderer and no
    other markup, whatever the keys and the values are: with [c] columns
    and [m] data rows it has [8 + 2c + m(2 + 2c)] characters [<] and as
    many [>], and no quote of either kind. *)
Theorem preview_tags_only (items : list JsVal) (maxRows : option Z) :
  items <> [] ->
  Forall (fun row => is_record row = true) items ->
  (0 <= default 10%Z maxRows)%Z ->
  let m := Nat.min (length items) (Z.to_nat (default 10%Z maxRows)) in
  let c := length (first_seen (flat_map record_keys (take m items))) in
  exists html,
    previewHTML (JArr items) maxRows = Ok html
    /\ occurrences "<" html = tag_count c m
    /\ occurrences ">" html = tag_count c m
    /\ occurrences quot html = 0
    /\ occurrences "'" html = 0.
Proof.
  intros Hne Hrec Hmax m c.
  destruct (preview_shape items maxRows Hne Hrec Hmax) as (ess & Hrun & Hlen & Hshape).
  fold m in Hlen, Hrun, Hshape.
  set (cols := first_seen (flat_map record_keys (take m items))) in *.
  exists (table_of cols ess). split; [exact Hrun|].
  split; [|split; [|split]].
  - rewrite (counts_table "<" 1);
      [rewrite Hlen; unfold c; lia | apply (counts_escaped "") | | exact Hshape].
    repeat constructor; intros rest; reflexivity.
  - rewrite (counts_table ">" 1);
      [rewrite Hlen; unfold c; lia | apply counts_escaped_gt | | exact Hshape].
    repeat constructor; intros rest; reflexivity.
  - rewrite (counts_table quot 0); [lia | apply counts_escaped_quot | | exact Hshape].
    repeat constructor; intros rest; reflexivity.
  - rewrite (counts_table "'" 0); [lia | apply counts_escaped_apostrophe | | exact Hshape].
    repeat constructor; intros rest; reflexivity.
Qed.

Lemma preview_tags_only_witness :
  Forall (fun row => is_record row = true) three_rows
  /\ exists html,
       previewHTML (JArr three_rows) (Some 2%Z) = Ok html
       /\ occurrences "<" html = 30 /\ occurrences ">" html = 30
       /\ occurrences quot html = 0 /\ occurrences "'" html = 0.
Proof.
  assert (Forall (fun row => is_record row = true) three_rows) as H
    by (repeat constructor).
  split; [exact H|].
  destruct (preview_tags_only three_rows (Some 2%Z)) as (html & Hrun & H1 & H2 & H3 & H4);
    [discriminate | exact H | cbn; lia |].
  exists html. repeat split; assumption.
Defined.

(** ** Computations confined to some elements *)

Lemma confined_ret ids {A} (a : A) : confined ids (mret a).
Proof. split; [reflexivity|]. intros w w' H. split; [reflexivity | exact H]. Qed.

Lemma confined_lift ids {A} (r : Result A) : confined ids (lift r).
Proof. split; [reflexivity|]. intros w w' H. split; [reflexivity | exact H]. Qed.

(** [k] has to be confined only for what [m] can return. *)
Lemma confined_bind ids {A B} (m : M A) (k : A -> M B) (Q : A -> Prop) :
  confined ids m ->
  (forall w a, snd (m w) = Ok a -> Q a) ->
  (forall a, Q a -> confined ids (k a)) ->
  confined ids (m ≫= k).
Proof.
  intros [Hm1 Hm2] HQ Hk. split.
  - intros w id Hid. unfold mbind, M_bind. specialize (Hm1 w id Hid). specialize (HQ w).
    destruct (m w) as [w1 [a|e]]; cbn [fst snd] in *; [|exact Hm1].
    destruct (Hk a (HQ a eq_refl)) as [Hk1 _]. now rewrite Hk1.
  - intros w w' Hw. unfold mbind, M_bind.
    destruct (Hm2 w w' Hw) as [Hr Ha]. pose proof (HQ w) as HQw.
    destruct (m w) as [w1 [a|e]], (m w') as [w1' [a'|e']]; cbn [fst snd] in *;
      try discriminate.
    + injection Hr as <-. destruct (Hk a (HQw a eq_refl)) as [_ Hk2]. now apply Hk2.
    + injection Hr as <-. split; [reflexivity | assumption].
Qed.

Lemma confined_seq ids {A B} (m : M A) (k : A -> M B) :
  confined ids m -> (forall a, confined ids (k a)) -> confined ids (m ≫= k).
Proof. intros Hm Hk. apply (confined_bind ids m k (fun _ => True)); auto. Qed.

Lemma confined_getById ids id {B} (k : option string -> M B) :
  In id ids -> (forall el, among ids el -> confined ids (k el)) ->
  confined ids (getById id ≫= k).
Proof.
  intros Hid Hk. apply (confined_bind ids _ k (among ids)); [|  |exact Hk].
  - split; [reflexivity|]. intros w w' Hw. split; [|exact Hw].
    unfold getById. cbn [snd]. now rewrite (Hw id Hid).
  - intros w a. unfold getById. cbn [snd]. intros [= <-].
    destruct (page w !! id); [exact Hid | exact I].
Qed.

Lemma confined_update ids el f : among ids el -> confined ids (update el f).
Proof.
  intros Hel. destruct el as [id|]; cbn [among] in Hel.
  - split.
    + intros w j Hj. cbn [update fst page with_page].
      rewrite lookup_alter_ne by (intros <-; tauto). reflexivity.
    + intros w w' Hw. split; [reflexivity|]. intros j Hj. cbn [update fst page with_page].
      destruct (decide (id = j)) as [<-|Hne].
      * rewrite !lookup_alter_eq. now rewrite (Hw id Hj).
      * rewrite !lookup_alter_ne by assumption. now apply Hw.
  - split; [reflexivity|]. intros w w' Hw. split; [reflexivity | exact Hw].
Qed.

Lemma confined_console_log ids tag v : confined ids (console_log tag v).
Proof. split; [reflexivity|]. intros w w' H. split; [reflexivity | exact H]. Qed.

Lemma confined_setTimeout ids t : confined ids (setTimeout t).
Proof. split; [reflexivity|]. intros w w' H. split; [reflexivity | exact H]. Qed.

Lemma confined_set_textContent ids el v :
  among ids el -> confined ids (set_textContent el v).
Proof.
  intros H. unfold set_textContent.
  apply confined_seq; [apply confined_lift | intros; now apply confined_update].
Qed.

Lemma confined_progress ids el pct : among ids el -> confined ids (progress el pct).
Proof.
  intros H. destruct el; [now apply confined_update | apply confined_ret].
Qed.

Lemma confined_renderPreviewTable ids el rows maxRows :
  among ids el -> confined ids (renderPreviewTable el rows maxRows).
Proof.
  intros H. unfold renderPreviewTable.
  apply confined_seq; [apply confined_lift | intros; now apply confined_update].
Qed.

(** One step of a confined computation. *)
Ltac confine :=
  first
    [ apply confined_getById; [cbn [In]; tauto | intros ? ?]
    | apply confined_seq; [|intros ?]
    | apply confined_ret
    | apply confined_lift
    | apply confined_console_log
    | apply confined_setTimeout
    | apply confined_set_textContent; assumption
    | apply confined_progress; assumption
    | apply confined_renderPreviewTable; assumption
    | apply confined_update; assumption ].

Section Settling.

Variable JSON_parse : string -> Result JsVal.
Variable JSON_stringify : JsVal -> option string.
Variable toLocaleString : JsNum -> string.

Lemma confined_showUser data :
  confined (footprint UserLoader) (showUser JSON_stringify data).
Proof.
  unfold showUser, footprint. repeat confine.
Qed.

Lemma confined_showPing data :
  confined (footprint PingLoader) (showPing JSON_stringify data).
Proof. unfold showPing, footprint. repeat confine. Qed.

Lemma confined_showEmails data :
  confined (footprint EmailsLoader) (showEmails JSON_stringify toLocaleString data).
Proof. unfold showEmails, footprint. cbv zeta. repeat confine. Qed.

Lemma confined_settle l r :
  confined (footprint l) (settle JSON_parse JSON_stringify toLocaleString l r).
Proof.
  destruct l; cbn [settle];
    [apply confined_showUser | apply confined_showPing | apply confined_showEmails].
Qed.

End Settling.

(** ** The order in which the responses arrive *)

Lemma confined_page ids {A} (m : M A) w w' :
  confined ids m -> page w = page w' -> page (attempt m w) = page (attempt m w').
Proof.
  intros [H1 H2] E. apply map_eq. intros id. unfold attempt.
  destruct (in_dec String.string_dec id ids) as [Hin|Hout].
  - apply H2; [|exact Hin]. intros j _. now rewrite E.
  - now rewrite !H1, E by assumption.
Qed.

(** Two computations confined to separate elements can run in either
    order: the page is the same in the end. *)
Lemma confined_commute ids1 ids2 {A B} (m1 : M A) (m2 : M B) w :
  confined ids1 m1 -> confined ids2 m2 ->
  (forall id, In id ids1 -> ~ In id ids2) ->
  page (attempt m2 (attempt m1 w)) = page (attempt m1 (attempt m2 w)).
Proof.
  intros [F1 R1] [F2 R2] Hd. apply map_eq. intros id. unfold attempt.
  destruct (in_dec String.string_dec id ids1) as [H1|H1].
  - rewrite F2 by auto. symmetry. apply R1; [|exact H1].
    intros j Hj. apply F2. auto.
  - rewrite (F1 (fst (m2 w))) by assumption.
    destruct (in_dec String.string_dec id ids2) as [H2|H2].
    + apply R2; [|exact H2]. intros j Hj. apply F1. intros Hj1. exact (Hd j Hj1 Hj).
    + now rewrite !F2, F1 by assumption.
Qed.

Lemma footprint_apart l1 l2 :
  l1 <> l2 -> forall id, In id (footprint l1) -> ~ In id (footprint l2).
Proof.
  intros Hne id H1 H2.
  destruct l1, l2; try congruence; cbn [footprint In] in H1, H2;
    repeat (destruct H1 as [<-|H1]; [repeat (destruct H2 as [H2|H2]; [discriminate H2|]);
                                      exact H2|]); exact H1.
Qed.

Section Arrival.

Variable fetch : string -> option Response.
Variable JSON_parse : string -> Result JsVal.
Variable JSON_stringify : JsVal -> option string.
Variable toLocaleString : JsNum -> string.

(** A loader is its two halves around the request. *)
Lemma load_halves l w :
  load fetch JSON_parse JSON_stringify toLocaleString l w
  = (url ← start l; r ← request fetch url;
     settle JSON_parse JSON_stringify toLocaleString l r) w.
Proof.
  destruct l; cbn [load start settle].
  - unfold loadUser, fetchJSON, parsed, mbind, M_bind, mret, M_ret, request.
    destruct (fetch "/api/me"); [destruct (JSON_parse _)|]; reflexivity.
  - unfold loadPing, fetchJSON, parsed, mbind, M_bind, mret, M_ret, request.
    destruct (getById "pingBar" w) as [w1 [el|e]]; [|reflexivity].
    destruct (progress el (num_of_Z 12) w1) as [w2 [[]|e]]; [|reflexivity].
    destruct (fetch "/api/sql/ping"); [destruct (JSON_parse _)|]; reflexivity.
  - unfold loadEmails, fetchJSON, parsed, mbind, M_bind, mret, M_ret, request.
    destruct (emailsRequest w) as [w1 [url|e]]; [|reflexivity].
    destruct (fetch url); [destruct (JSON_parse _)|]; reflexivity.
Qed.

Lemma confined_fire l t : timer_of l = Some t -> confined (footprint l) (fire t).
Proof.
  destruct l; intros [= <-]; unfold fire, footprint; cbn [timer_bar]; repeat confine.
Qed.

Lemma confined_handle e :
  confined (footprint (loader_of e)) (handle JSON_parse JSON_stringify toLocaleString e).
Proof.
  destruct e as [l r|l]; cbn [handle loader_of]; [apply confined_settle|].
  destruct (timer_of l) eqn:E; [now apply confined_fire | apply confined_ret].
Qed.

Lemma run_events_cons e s w :
  run_events JSON_parse JSON_stringify toLocaleString (e :: s) w
  = run_events JSON_parse JSON_stringify toLocaleString s
      (attempt (handle JSON_parse JSON_stringify toLocaleString e) w).
Proof. reflexivity. Qed.

Lemma run_events_page s w w' :
  page w = page w' ->
  page (run_events JSON_parse JSON_stringify toLocaleString s w)
  = page (run_events JSON_parse JSON_stringify toLocaleString s w').
Proof.
  revert w w'. induction s as [|e s IH]; intros w w' E; [exact E|].
  rewrite !run_events_cons. apply IH.
  apply (confined_page (footprint (loader_of e))); [apply confined_handle | exact E].
Qed.

(** An event moves to the front past the events of the other loaders. *)
Lemma run_events_front pre e post w :
  Forall (fun x => loader_of x <> loader_of e) pre ->
  page (run_events JSON_parse JSON_stringify toLocaleString (pre ++ e :: post) w)
  = page (run_events JSON_parse JSON_stringify toLocaleString (e :: pre ++ post) w).
Proof.
  revert w. induction pre as [|x pre IH]; intros w H; [reflexivity|].
  inversion H as [|? ? Hx Hpre]; subst. cbn [app]. rewrite run_events_cons.
  rewrite IH by assumption. rewrite !run_events_cons. apply run_events_page.
  apply (confined_commute (footprint (loader_of x)) (footprint (loader_of e)));
    [apply confined_handle | apply confined_handle | now apply footprint_apart].
Qed.

Lemma Loader_eqb_eq a b : Loader_eqb a b = true <-> a = b.
Proof. destruct a, b; cbn; split; congruence. Qed.

Lemma filter_head {A} (f : A -> bool) s x t :
  List.filter f s = x :: t ->
  exists pre post,
    s = (pre ++ x :: post)%list /\ List.filter f pre = [] /\ List.filter f post = t.
Proof.
  induction s as [|y s IH]; cbn [List.filter]; [discriminate|].
  destruct (f y) eqn:E.
  - intros [= -> <-]. exists [], s. repeat split.
  - intros H. destruct (IH H) as (pre & post & -> & Hpre & Hpost).
    exists (y :: pre), post. cbn [List.filter app]. rewrite E. repeat split; assumption.
Qed.

Lemma filter_none {A} (f : A -> bool) s :
  List.filter f s = [] -> Forall (fun y => f y = false) s.
Proof.
  induction s as [|y s IH]; cbn [List.filter]; [constructor|].
  destruct (f y) eqn:E; [discriminate|]. intros H. constructor; auto.
Qed.

(** X3. The responses and the timers may come in any order: as long as
    each loader sees its own events in the same order, the page is the
    same in the end. *)
Theorem arrival_order (s1 s2 : list Event) (w : World) :
  (forall l, events_of l s1 = events_of l s2) ->
  page (run_events JSON_parse JSON_stringify toLocaleString s1 w)
  = page (run_events JSON_parse JSON_stringify toLocaleString s2 w).
Proof.
  revert s2 w. induction s1 as [|e s1 IH]; intros s2 w H.
  - destruct s2 as [|x s2]; [reflexivity|].
    specialize (H (loader_of x)). unfold events_of in H. cbn [List.filter] in H.
    rewrite (proj2 (Loader_eqb_eq _ _) eq_refl) in H. discriminate.
  - pose proof (H (loader_of e)) as He. unfold events_of in He. cbn [List.filter] in He.
    rewrite (proj2 (Loader_eqb_eq _ _) eq_refl) in He. symmetry in He.
    apply filter_head in He as (pre & post & -> & Hpre & Hpost).
    rewrite run_events_front.
    + rewrite !run_events_cons. apply IH. intros l. specialize (H l).
      unfold events_of in *. rewrite List.filter_app in *. cbn [List.filter] in H.
      destruct (Loader_eqb l (loader_of e)) eqn:E.
      * apply Loader_eqb_eq in E. subst l. now rewrite Hpre, Hpost.
      * exact H.
    + apply filter_none in Hpre. eapply List.Forall_impl; [|exact Hpre].
      cbn beta. intros x Hx Heq. rewrite Heq in Hx.
      rewrite (proj2 (Loader_eqb_eq _ _) eq_refl) in Hx. discriminate.
Qed.

End Arrival.

(** ** [wireEvents] and the calls of [init] *)

Lemma wireEvents_run w :
  exists w',
    wireEvents w = (w', Ok tt)
    /\ page w' = page w /\ requests w' = requests w /\ console w' = console w
    /\ timers w' = timers w /\ listeners w' = (listeners w ++ wired w)%list.
Proof.
  unfold wireEvents, wired, on_page. cbn [List.filter fst].
  unfold mbind, M_bind, getById, addEventListener.
  destruct (page w !! "runEmails"); cbn [page];
    (destruct (page w !! "clearFilters"); cbn [page];
     (destruct (page w !! "refreshPing");
      eexists; (split; [reflexivity|]); cbn [page requests console timers listeners app];
      rewrite <- ?app_assoc, ?app_nil_r; repeat split; reflexivity)).
Qed.

(** [progress($(bar), pct)] whether the bar is there or not. *)
Lemma run_bar {B} bar pct (k : unit -> M B) w :
  (getById bar ≫= fun el => progress el pct ≫= k) w
  = k tt (bar_at (Number_toString (clamp pct) ++ "%") bar w).
Proof.
  rewrite run_getById_any. unfold bar_at. destruct (page w !! bar).
  - apply run_progress_bind.
  - reflexivity.
Qed.

Lemma bar_at_page width bar w id :
  id <> bar -> page (bar_at width bar w) !! id = page w !! id.
Proof.
  intros H. unfold bar_at. destruct (page w !! bar); [|reflexivity].
  cbn [page with_page]. now rewrite lookup_alter_ne by congruence.
Qed.

Lemma bar_at_requests width bar w : requests (bar_at width bar w) = requests w.
Proof. unfold bar_at. now destruct (page w !! bar). Qed.

Lemma bar_at_listeners width bar w : listeners (bar_at width bar w) = listeners w.
Proof. unfold bar_at. now destruct (page w !! bar). Qed.

Lemma emailsRequest_outcome w :
  emailsRequest w
  = match emails_url w with
    | Some url => (bar_at "18%" "emailBar" w, Ok url)
    | None => (w, Throw TypeError)
    end.
Proof.
  unfold emailsRequest, emails_url, filters.
  rewrite run_getById_any. destruct (page w !! "subjectInput") eqn:E1; [|reflexivity].
  rewrite run_get_value, E1.
  rewrite run_getById_any. destruct (page w !! "fromEmailInput") eqn:E2; [|reflexivity].
  rewrite run_get_value, E2.
  rewrite run_getById_any. destruct (page w !! "isReadSelect") eqn:E3; [|reflexivity].
  rewrite run_get_value, E3.
  rewrite run_getById_any. destruct (page w !! "isStarredSelect") eqn:E4; [|reflexivity].
  rewrite run_get_value, E4.
  rewrite run_bar. reflexivity.
Qed.

Section Calls.

Variable fetch : string -> option Response.

Lemma launch_run l w :
  launch fetch l w
  = match start l w with
    | (w', Ok url) =>
        (log_request url w',
         Ok match fetch url with
            | Some r => [(l, r)]
            | None => []
            end)
    | (w', Throw _) => (w', Ok [])
    end.
Proof.
  unfold launch, mbind, M_bind, request.
  destruct (start l w) as [w' [url|e]]; [destruct (fetch url)|]; reflexivity.
Qed.

Lemma emails_url_page w w' :
  (forall id, id <> "pingBar" -> page w' !! id = page w !! id) ->
  emails_url w' = emails_url w.
Proof. intros H. unfold emails_url, filters. now rewrite !H by discriminate. Qed.

(** X4. [init], up to its [await], on any page without listeners yet
    and with any backend: it does not throw; it wires the buttons that
    are on the page; it asks for [/api/me], then for [/api/sql/ping],
    then, if the four filter controls are on the page, for the emails;
    it waits for the responses of the requests that were answered, at
    most one for each loader; on the page it touches the two bars only. *)
Theorem init_calls_requests (w : World) :
  listeners w = [] ->
  exists w1,
    init_calls fetch w = (w1, Ok (answered fetch (emails_url w)))
    /\ requests w1
       = (requests w ++ ["/api/me"; "/api/sql/ping"]
          ++ match emails_url w with
             | Some url => [url]
             | None => []
             end)%list
    /\ listeners w1 = wired w
    /\ (forall id, id <> "pingBar" -> id <> "emailBar" -> page w1 !! id = page w !! id)
    /\ List.NoDup (map fst (answered fetch (emails_url w))).
Proof.
  intros Hnone.
  destruct (wireEvents_run w) as (w0 & Hw & Hp & Hr & _ & _ & Hl).
  rewrite Hnone in Hl. cbn [app] in Hl.
  unfold init_calls. rewrite (run_bind _ _ _ _ _ Hw).
  unfold mbind at 1, M_bind at 1. rewrite launch_run. cbn [start].
  unfold mret at 1, M_ret at 1.
  unfold mbind at 1, M_bind at 1. rewrite launch_run. cbn [start].
  rewrite run_bar. unfold mret at 1, M_ret at 1.
  unfold mbind at 1, M_bind at 1. rewrite launch_run. cbn [start].
  rewrite emailsRequest_outcome.
  set (w3 := log_request "/api/sql/ping" _).
  assert (forall id, id <> "pingBar" -> page w3 !! id = page w !! id) as Hpage.
  { intros id Hid. unfold w3. cbn [log_request page]. rewrite bar_at_page by assumption.
    cbn [log_request page]. now rewrite Hp. }
  assert (requests w3 = (requests w ++ ["/api/me"; "/api/sql/ping"])%list
          /\ listeners w3 = wired w) as [Hreq Hlis].
  { unfold w3. cbn [log_request requests listeners]. rewrite bar_at_requests, bar_at_listeners.
    cbn [log_request requests listeners]. rewrite Hr, Hl, <- app_assoc. split; reflexivity. }
  rewrite (emails_url_page w w3 Hpage). clearbody w3. unfold answered, waited.
  destruct (emails_url w) as [url|]; eexists; (split; [reflexivity|]);
    cbn [log_request requests listeners page];
    rewrite ?bar_at_requests, ?bar_at_listeners, Hreq, Hlis, <- ?app_assoc, ?app_nil_r;
    (split; [reflexivity|]); (split; [reflexivity|]);
    (split; [intros id H1 H2; rewrite ?bar_at_page by assumption; now apply Hpage|]);
    unfold waited; try destruct (fetch url); destruct (fetch "/api/me");
      destruct (fetch "/api/sql/ping"); cbn [map app fst];
      repeat (constructor; [cbn [In]; intuition discriminate|]); constructor.
Qed.

End Calls.


Lemma init_calls_requests_witness :
  listeners demo_world = []
  /\ exists w1,
       init_calls demo_server demo_world
       = (w1, Ok [(UserLoader, {| status := 200; body := nested_body |});
                  (PingLoader, {| status := 200; body := ping_body |})])
       /\ requests w1 = ["/api/me"; "/api/sql/ping"; "/api/emails?limit=100"]
       /\ listeners w1
          = [("runEmails", OnLoadEmails); ("clearFilters", OnClearFilters);
             ("refreshPing", OnLoadPing)].
Proof.
  split; [reflexivity|].
  destruct (init_calls_requests demo_server demo_world eq_refl)
    as (w1 & Hrun & Hreq & Hlis & _).
  exists w1. split; [exact Hrun|]. split; [exact Hreq | exact Hlis].
Defined.

Lemma arrival_order_witness :
  (forall l, events_of l user_first = events_of l ping_first)
  /\ page (run_events Reference.JSON_parse Reference.JSON_stringify
             Reference.toLocaleString user_first demo_world)
     = page (run_events Reference.JSON_parse Reference.JSON_stringify
               Reference.toLocaleString ping_first demo_world).
Proof.
  assert (forall l, events_of l user_first = events_of l ping_first) as H
    by (intros []; reflexivity).
  split; [exact H|]. apply arrival_order. exact H.
Defined.

(** ** The loaders and the backend *)

Lemma present_log_console w id tag v : present w id -> present (log_console tag v w) id.
Proof. exact (fun H => H). Qed.

Lemma present_log_request w id url : present w id -> present (log_request url w) id.
Proof. exact (fun H => H). Qed.

Lemma bar_at_present width bar w :
  present w bar -> bar_at width bar w = with_page (alter (with_width width) bar) w.
Proof. intros [e He]. unfold bar_at. now rewrite He. Qed.

(** [$(id)] for an element of the page, after some steps of a loader. *)
Ltac there :=
  repeat first
    [ assumption
    | apply present_alter
    | apply present_log_console
    | apply present_log_request ].

Ltac get_there := rewrite run_getById by there; cbv beta.

(** [el.textContent = JSON.stringify(data, null, 2)] *)
Lemma run_set_stringified {B} JSON_stringify id data (k : unit -> M B) w :
  (set_textContent (Some id) (stringify JSON_stringify data) ≫= k) w
  = k tt (with_page (alter (with_content (Text (default "" (JSON_stringify data)))) id) w).
Proof. unfold stringify. destruct (JSON_stringify data); reflexivity. Qed.

Lemma run_renderPreviewTable {B} id rows maxRows html (k : unit -> M B) w :
  previewHTML rows maxRows = Ok html ->
  (renderPreviewTable (Some id) rows maxRows ≫= k) w
  = k tt (with_page (alter (with_content (Markup html)) id) w).
Proof. intros H. unfold renderPreviewTable, mbind, M_bind, lift. now rewrite H. Qed.

Lemma run_setTimeout t w :
  setTimeout t w
  = ({| page := page w; requests := requests w; console := console w;
        timers := timers w ++ [t]; listeners := listeners w |}, Ok tt).
Proof. reflexivity. Qed.

Lemma rows_run data items :
  rows_of data = Some items -> opt_get data "rows" ||> JArr [] = JArr items.
Proof.
  unfold rows_of. destruct (opt_get data "rows"); try discriminate; now intros [= <-].
Qed.

Lemma preview_records items :
  Forall (fun row => is_record row = true) items ->
  exists html, previewHTML (JArr items) None = Ok html.
Proof.
  intros H. destruct items as [|row items]; [now eexists|].
  destruct (preview_shape (row :: items) None) as (ess & Hrun & _);
    [discriminate | exact H | cbn; lia | eauto].
Qed.

Lemma timing_run data :
  Forall (fun k => timing_ok (timing_of data k) = true)
    ["query_ms"; "serialize_ms"; "total_ms"] ->
  (q ← get_prop (opt_get data "timing" ||> JObj []) "query_ms";
   q ← ToString (q ?? JStr dash);
   s ← get_prop (opt_get data "timing" ||> JObj []) "serialize_ms";
   s ← ToString (s ?? JStr dash);
   a ← get_prop (opt_get data "timing" ||> JObj []) "total_ms";
   a ← ToString (a ?? JStr dash);
   Ok ("query " ++ q ++ " ms · json " ++ s ++ " ms · total " ++ a ++ " ms"))
  = Ok ("query " ++ timing_text (timing_of data "query_ms")
        ++ " ms · json " ++ timing_text (timing_of data "serialize_ms")
        ++ " ms · total " ++ timing_text (timing_of data "total_ms") ++ " ms").
Proof.
  intros H. repeat (let Hp := fresh in apply Forall_cons in H as [Hp H]).
  unfold timing_of in *.
  assert (forall k, get_prop (opt_get data "timing" ||> JObj []) k
                    = Ok (opt_get (opt_get data "timing" ||> JObj []) k)) as Hget.
  { intros k. unfold or_else. destruct (ToBoolean (opt_get data "timing")) eqn:E;
      [|reflexivity]. destruct (opt_get data "timing"); try discriminate; reflexivity. }
  assert (forall v, timing_ok v = true -> ToString (v ?? JStr dash) = Ok (timing_text v))
    as Htext by (intros v; destruct v; try discriminate; reflexivity).
  rewrite !Hget. unfold mbind, Result_bind.
  rewrite (Htext _ H0), (Htext _ H1), (Htext _ H2). reflexivity.
Qed.

Section Shown.

Variable JSON_stringify : JsVal -> option string.
Variable toLocaleString : JsNum -> string.

Lemma count_run data items :
  rows_of data = Some items ->
  ToString (fmt toLocaleString (opt_get (opt_get data "rows") "length" ?? JNum (num_of_Z 0)))
  = Ok (toLocaleString (num_of_Z (Z.of_nat (length items)))).
Proof.
  unfold rows_of. destruct (opt_get data "rows"); try discriminate; now intros [= <-].
Qed.

(** X5. What [loadEmails] shows once the data is there, when the data
    has an array of records as [rows], or no [rows], and timings that are
    numbers or texts or absent: the count is the number of all rows as
    [toLocaleString] prints it, the table is the preview of the rows,
    the timing line has the dash for each timing that is absent, the raw
    region holds the data as JSON, the bar is at 100% and a timer of
    400 ms is pending for it. *)
Theorem showEmails_rows (data : JsVal) (items : list JsVal) (w : World) :
  rows_of data = Some items ->
  Forall (fun row => is_record row = true) items ->
  Forall (fun k => timing_ok (timing_of data k) = true)
    ["query_ms"; "serialize_ms"; "total_ms"] ->
  Forall (present w) (footprint EmailsLoader) ->
  exists w' html,
    showEmails JSON_stringify toLocaleString data w = (w', Ok tt)
    /\ previewHTML (JArr items) None = Ok html
    /\ el_content <$> page w' !! "emailTable" = Some (Markup html)
    /\ el_content <$> page w' !! "emailCount"
       = Some (Text ("rows: " ++ toLocaleString (num_of_Z (Z.of_nat (length items)))))
    /\ el_content <$> page w' !! "emailTiming"
       = Some (Text ("query " ++ timing_text (timing_of data "query_ms")
                     ++ " ms · json " ++ timing_text (timing_of data "serialize_ms")
                     ++ " ms · total " ++ timing_text (timing_of data "total_ms") ++ " ms"))
    /\ el_content <$> page w' !! "emailRaw" = Some (Text (default "" (JSON_stringify data)))
    /\ el_width <$> page w' !! "emailBar" = Some "100%"
    /\ timers w' = (timers w ++ [{| timer_delay := 400; timer_bar := "emailBar" |}])%list
    /\ (forall id, ~ In id (footprint EmailsLoader) -> page w' !! id = page w !! id).
Proof.
  intros Hrows Hrec Htim H. unfold footprint in H.
  repeat (let Hp := fresh in apply Forall_cons in H as [Hp H]).
  destruct (preview_records items Hrec) as [html Hhtml].
  unfold showEmails. rewrite run_console_log. get_there. rewrite run_set_stringified.
  get_there. rewrite (count_run _ _ Hrows), run_lift, run_set_text.
  cbv zeta. get_there. rewrite (timing_run _ Htim), run_lift, run_set_text.
  get_there. rewrite (rows_run _ _ Hrows).
  rewrite (run_renderPreviewTable _ _ _ _ _ _ Hhtml).
  get_there. rewrite run_progress_bind, run_setTimeout.
  eexists. exists html. split; [reflexivity|]. split; [exact Hhtml|].
  destruct H0 as [e0 E0], H1 as [e1 E1], H2 as [e2 E2], H3 as [e3 E3], H4 as [e4 E4].
  cbn [page with_page log_console log_request timers].
  repeat split.
  - lookup_altered. now rewrite E3.
  - lookup_altered. now rewrite E1.
  - lookup_altered. now rewrite E2.
  - lookup_altered. now rewrite E0.
  - lookup_altered. now rewrite E4.
  - intros id Hid. cbn [footprint In] in Hid.
    rewrite !lookup_alter_ne by (intros <-; tauto). reflexivity.
Qed.

End Shown.

(** [renderKV] without a user: the dash in the three regions. *)
Lemma renderKV_absent w :
  renderKV JUndefined w
  = (meUser ← getById "meUser"; set_textContent meUser (JStr dash);;
     meDisplay ← getById "meDisplay"; set_textContent meDisplay (JStr dash);;
     meActive ← getById "meActive"; set_textContent meActive (JStr dash)) w.
Proof. reflexivity. Qed.

Section Outcomes.

Variable fetch : string -> option Response.
Variable JSON_parse : string -> Result JsVal.
Variable JSON_stringify : JsVal -> option string.
Variable toLocaleString : JsNum -> string.

Lemma fetchJSON_run url w :
  fetchJSON fetch JSON_parse url w
  = (log_request url w,
     match fetch url with
     | Some r => Ok (parsed JSON_parse r)
     | None => Throw NetworkError
     end).
Proof.
  unfold fetchJSON, request, parsed, fallback, mbind, M_bind.
  destruct (fetch url) as [r|]; [destruct (JSON_parse (body r))|]; reflexivity.
Qed.

Lemma run_fetchJSON {B} url r (k : JsVal -> M B) w :
  fetch url = Some r ->
  (fetchJSON fetch JSON_parse url ≫= k) w = k (parsed JSON_parse r) (log_request url w).
Proof. intros H. unfold mbind, M_bind. now rewrite fetchJSON_run, H. Qed.

Lemma fail_fetchJSON {B} url (k : JsVal -> M B) w :
  fetch url = None ->
  (fetchJSON fetch JSON_parse url ≫= k) w = (log_request url w, Throw NetworkError).
Proof. intros H. unfold mbind, M_bind. now rewrite fetchJSON_run, H. Qed.

(** X6. When the ping is not answered, [loadPing] ends in the network
    error with the bar where it had put it, at 12%: nothing else is
    shown and no timer is set to take the bar back. *)
Theorem loadPing_unanswered (w : World) :
  fetch "/api/sql/ping" = None ->
  loadPing fetch JSON_parse JSON_stringify w
  = (log_request "/api/sql/ping" (bar_at "12%" "pingBar" w), Throw NetworkError).
Proof.
  intros H. unfold loadPing. rewrite run_bar. now rewrite fail_fetchJSON.
Qed.

(** X7. When the ping is answered, on a page with the three ping
    elements: the status reads [OK] if the [ok] of the data is truthy
    and [Not OK] if not (also when the body was not JSON), the raw
    region holds the data as JSON, the bar is at 100% and one timer of
    400 ms is pending, which takes the bar to 0% when it fires. *)
Theorem loadPing_answered (w : World) (r : Response) :
  fetch "/api/sql/ping" = Some r ->
  present w "pingOk" -> present w "pingRaw" -> present w "pingBar" ->
  let data := parsed JSON_parse r in
  let timer := {| timer_delay := 400; timer_bar := "pingBar" |} in
  exists w',
    loadPing fetch JSON_parse JSON_stringify w = (w', Ok tt)
    /\ el_content <$> page w' !! "pingOk"
       = Some (Text (if ToBoolean (opt_get data "ok") then "OK" else "Not OK"))
    /\ el_content <$> page w' !! "pingRaw" = Some (Text (default "" (JSON_stringify data)))
    /\ el_width <$> page w' !! "pingBar" = Some "100%"
    /\ timers w' = (timers w ++ [timer])%list
    /\ requests w' = (requests w ++ ["/api/sql/ping"])%list
    /\ el_width <$> page (attempt (fire timer) w') !! "pingBar" = Some "0%"
    /\ (forall id, ~ In id (footprint PingLoader) -> page w' !! id = page w !! id).
Proof.
  intros Hf Hok Hraw Hbar data timer. unfold loadPing.
  rewrite run_bar, (bar_at_present _ _ _ Hbar), (run_fetchJSON _ _ _ _ Hf). fold data.
  rewrite run_console_log. get_there. rewrite run_set_text.
  get_there. rewrite run_set_stringified. get_there. rewrite run_progress_bind.
  rewrite run_setTimeout.
  eexists. split; [reflexivity|].
  destruct Hok as [e1 E1], Hraw as [e2 E2], Hbar as [e3 E3].
  unfold attempt, fire. cbn [timer_bar timer].
  rewrite run_getById_any.
  cbn [page with_page log_console log_request timers requests].
  repeat split.
  - lookup_altered. now rewrite E1.
  - lookup_altered. now rewrite E2.
  - lookup_altered. now rewrite E3.
  - lookup_altered. rewrite E3. cbn [fmap option_fmap option_map].
    rewrite run_progress. cbn [fst page with_page]. lookup_altered. now rewrite E3.
  - intros id Hid. cbn [footprint In] in Hid.
    rewrite !lookup_alter_ne by (intros <-; tauto). reflexivity.
Qed.

(** X8. When the body of the user endpoint is not JSON, [loadUser]
    returns, with the dash as mode and in the three identity regions and
    the record of the status and the body, as JSON, in the raw region. *)
Theorem loadUser_unparsed (w : World) (r : Response) (e : Error) :
  fetch "/api/me" = Some r -> JSON_parse (body r) = Throw e ->
  Forall (present w) (footprint UserLoader) ->
  exists w',
    loadUser fetch JSON_parse JSON_stringify w = (w', Ok tt)
    /\ el_content <$> page w' !! "meMode" = Some (Text dash)
    /\ el_content <$> page w' !! "meRaw"
       = Some (Text (default "" (JSON_stringify (fallback r))))
    /\ (forall id, In id identity_ids -> el_content <$> page w' !! id = Some (Text dash))
    /\ (forall id, ~ In id (footprint UserLoader) -> page w' !! id = page w !! id).
Proof.
  intros Hf Hp H. unfold footprint in H.
  repeat (let Hp := fresh in apply Forall_cons in H as [Hp H]).
  unfold loadUser. rewrite (run_fetchJSON _ _ _ _ Hf). unfold parsed. rewrite Hp.
  rewrite run_console_log. get_there.
  change (opt_get (fallback r) "mode" ?? JStr dash) with (JStr dash).
  rewrite run_set_text. get_there. rewrite run_set_stringified.
  change (opt_get (fallback r) "current_user") with JUndefined.
  rewrite renderKV_absent. get_there. rewrite run_set_text. get_there.
  rewrite run_set_text. get_there.
  eexists. split; [reflexivity|].
  destruct H0 as [e0 E0], H1 as [e1 E1], H2 as [e2 E2], H3 as [e3 E3], H4 as [e4 E4].
  cbn [page with_page log_console log_request].
  split; [|split; [|split]].
  - lookup_altered. now rewrite E0.
  - lookup_altered. now rewrite E1.
  - intros id Hid. cbn [identity_ids In] in Hid.
    destruct Hid as [<-|[<-|[<-|[]]]]; lookup_altered; [now rewrite E2 | now rewrite E3 |].
    now rewrite E4.
  - intros id Hid. cbn [footprint In] in Hid.
    rewrite !lookup_alter_ne by (intros <-; tauto). reflexivity.
Qed.

(** X9. When the request for the emails is not answered, [loadEmails]
    ends in the network error with the bar where it had put it, at 18%:
    nothing else is shown and no timer is set to take the bar back. *)
Theorem loadEmails_unanswered (w : World) (url : string) :
  emails_url w = Some url -> fetch url = None ->
  loadEmails fetch JSON_parse JSON_stringify toLocaleString w
  = (log_request url (bar_at "18%" "emailBar" w), Throw NetworkError).
Proof.
  intros Hu Hf. unfold loadEmails.
  pose proof (emailsRequest_outcome w) as Hr. rewrite Hu in Hr.
  rewrite (run_bind _ _ _ _ _ Hr). now rewrite fail_fetchJSON.
Qed.

(** X10. When one of the four filter controls is not on the page,
    [loadEmails] throws a TypeError before anything happens: no request
    is sent and nothing changes. *)
Theorem loadEmails_no_control (w : World) :
  emails_url w = None ->
  loadEmails fetch JSON_parse JSON_stringify toLocaleString w = (w, Throw TypeError).
Proof.
  intros Hu. unfold loadEmails, mbind, M_bind. now rewrite emailsRequest_outcome, Hu.
Qed.

End Outcomes.

Lemma loadPing_unanswered_witness :
  down_server "/api/sql/ping" = None
  /\ el_width <$> page (attempt (loadPing down_server Reference.JSON_parse
                                   Reference.JSON_stringify) demo_world) !! "pingBar"
     = Some "12%".
Proof.
  split; [reflexivity|]. unfold attempt.
  rewrite (loadPing_unanswered down_server Reference.JSON_parse Reference.JSON_stringify
             demo_world eq_refl).
  reflexivity.
Defined.

Lemma loadPing_answered_witness :
  demo_server "/api/sql/ping" = Some {| status := 200; body := ping_body |}
  /\ exists w',
       loadPing demo_server Reference.JSON_parse Reference.JSON_stringify demo_world
       = (w', Ok tt)
       /\ el_content <$> page w' !! "pingOk" = Some (Text "OK")
       /\ el_width <$> page w' !! "pingBar" = Some "100%"
       /\ timers w' = [{| timer_delay := 400; timer_bar := "pingBar" |}].
Proof.
  split; [reflexivity|].
  destruct (loadPing_answered demo_server Reference.JSON_parse Reference.JSON_stringify
              demo_world {| status := 200; body := ping_body |} eq_refl)
    as (w' & Hrun & Hok & _ & Hbar & Ht & _);
    [vm_compute; eauto | vm_compute; eauto | vm_compute; eauto |].
  exists w'. repeat split; assumption.
Defined.

Lemma loadUser_unparsed_witness :
  Reference.JSON_parse "not json" = Throw SyntaxError
  /\ exists w',
       loadUser not_json_server Reference.JSON_parse Reference.JSON_stringify demo_world
       = (w', Ok tt)
       /\ el_content <$> page w' !! "meMode" = Some (Text dash)
       /\ el_content <$> page w' !! "meDisplay" = Some (Text dash).
Proof.
  split; [reflexivity|].
  destruct (loadUser_unparsed not_json_server Reference.JSON_parse Reference.JSON_stringify
              demo_world {| status := 200; body := "not json" |} SyntaxError eq_refl eq_refl)
    as (w' & Hrun & Hm & _ & Hid & _).
  { repeat constructor; vm_compute; eauto. }
  exists w'. split; [exact Hrun|]. split; [exact Hm|]. apply Hid. cbn. tauto.
Defined.

Lemma showEmails_rows_witness :
  Reference.JSON_parse emails_body = Ok emails_data
  /\ exists w',
       showEmails Reference.JSON_stringify Reference.toLocaleString emails_data demo_world
       = (w', Ok tt)
       /\ el_content <$> page w' !! "emailCount" = Some (Text "rows: 2")
       /\ el_content <$> page w' !! "emailTiming"
          = Some (Text ("query 12 ms · json " ++ dash ++ " ms · total " ++ dash ++ " ms")).
Proof.
  split; [reflexivity|].
  destruct (showEmails_rows Reference.JSON_stringify Reference.toLocaleString emails_data
              [JObj [("id", JNum (num_of_Z 1)); ("subject", JStr "Hi")];
               JObj [("id", JNum (num_of_Z 2))]] demo_world eq_refl)
    as (w' & html & Hrun & _ & _ & Hcount & Htiming & _).
  - repeat constructor.
  - repeat constructor.
  - repeat constructor; vm_compute; eauto.
  - exists w'. repeat split; assumption.
Defined.

Lemma loadEmails_unanswered_witness :
  emails_url demo_world = Some "/api/emails?limit=100"
  /\ el_width <$> page (attempt (loadEmails down_server Reference.JSON_parse
                                   Reference.JSON_stringify Reference.toLocaleString)
                          demo_world) !! "emailBar"
     = Some "18%".
Proof.
  split; [reflexivity|]. unfold attempt.
  rewrite (loadEmails_unanswered down_server Reference.JSON_parse Reference.JSON_stringify
             Reference.toLocaleString demo_world "/api/emails?limit=100" eq_refl eq_refl).
  reflexivity.
Defined.

Lemma loadEmails_no_control_witness :
  emails_url empty_world = None
  /\ loadEmails demo_server Reference.JSON_parse Reference.JSON_stringify
       Reference.toLocaleString empty_world
     = (empty_world, Throw TypeError).
Proof.
  split; [reflexivity|].
  exact (loadEmails_no_control demo_server Reference.JSON_parse Reference.JSON_stringify
           Reference.toLocaleString empty_world eq_refl).
Defined.

(** ** Rows that are not records, and rows beyond the sample *)

Lemma reduce_keys_nullish set sample :
  existsb nullish sample = true -> reduce_keys set sample = Throw TypeError.
Proof.
  revert set. induction sample as [|row sample IH]; intros set; [discriminate|].
  cbn [existsb reduce_keys]. intros H.
  destruct row; try discriminate H; try reflexivity;
    cbn [nullish orb] in H; cbn [Object_keys]; unfold mbind, Result_bind; now apply IH.
Qed.

Lemma take_min {A} n (l : list A) : take (Nat.min (length l) n) l = take n l.
Proof.
  destruct (Nat.le_ge_cases n (length l)).
  - now rewrite Nat.min_r.
  - rewrite Nat.min_l by assumption. now rewrite !firstn_all2 by lia.
Qed.

(** X11. A row that is [null] or [undefined] among the rows of the
    sample makes the renderer throw a TypeError, and the element keeps
    what it showed. *)
Theorem preview_nullish_row (el : option string) (items : list JsVal)
  (maxRows : option Z) (w : World) :
  (0 <= default 10%Z maxRows)%Z ->
  existsb nullish (take (Z.to_nat (default 10%Z maxRows)) items) = true ->
  renderPreviewTable el (JArr items) maxRows w = (w, Throw TypeError).
Proof.
  intros Hmax H.
  assert (items <> []) as Hne by (intros ->; now rewrite take_nil in H).
  unfold renderPreviewTable. rewrite previewHTML_nonempty by assumption. cbv zeta.
  rewrite slice0_count, take_min by assumption.
  now rewrite (reduce_keys_nullish _ _ H).
Qed.

Lemma preview_nullish_row_witness :
  renderPreviewTable (Some "emailTable")
    (JArr [JObj [("id", JNum (num_of_Z 1))]; JNull]) None demo_world
  = (demo_world, Throw TypeError).
Proof. apply preview_nullish_row; [cbn; lia | reflexivity]. Defined.

(** X12. The table depends on the rows of the sample only: the rows that
    follow the first [maxRows] change nothing, whatever they are. *)
Theorem preview_first_rows (items extra : list JsVal) (maxRows : option Z) :
  (0 < default 10%Z maxRows)%Z ->
  Z.to_nat (default 10%Z maxRows) <= length items ->
  previewHTML (JArr (items ++ extra)) maxRows = previewHTML (JArr items) maxRows.
Proof.
  intros Hmax Hlen.
  assert (items <> []) as Hne by (intros ->; cbn in Hlen; lia).
  assert ((items ++ extra)%list <> []) as Hne' by (destruct items; [congruence | discriminate]).
  rewrite !previewHTML_nonempty by assumption. cbv zeta.
  rewrite !slice0_count, !take_min by lia.
  now rewrite take_app_le by assumption.
Qed.

Lemma preview_first_rows_witness :
  previewHTML (JArr (three_rows ++ [JNull])) (Some 2%Z)
  = previewHTML (JArr three_rows) (Some 2%Z).
Proof. apply preview_first_rows; [cbn; lia | cbn; lia]. Defined.

(** ** The query string *)

Lemma all_chars_app p s t : all_chars p (s ++ t) = all_chars p s && all_chars p t.
Proof.
  induction s as [|c s IH]; [reflexivity|].
  cbn [String.append all_chars]. now rewrite IH, andb_assoc.
Qed.

Lemma percent_encode_safe b : all_chars url_safe (percent_encode b) = true.
Proof.
  destruct b as [b0 b1 b2 b3 b4 b5 b6 b7].
  destruct b0, b1, b2, b3, b4, b5, b6, b7; vm_compute; reflexivity.
Qed.

Lemma urlencode_safe v : all_chars url_safe (urlencode v) = true.
Proof.
  unfold urlencode. induction (String.concat "" _) as [|c s IH]; [reflexivity|].
  cbn [flat_map_chars]. now rewrite all_chars_app, percent_encode_safe, IH.
Qed.

(** X13. The URL [loadEmails] asks for: [/api/emails?] and the
    parameters, each filter that is not empty once, in the order
    [subject], [from_email], [is_read], [is_starred], then [limit=100],
    joined by [&].  The value of a parameter is serialized to letters,
    digits and [*-._+%] only, so that no filter text can end a
    parameter or start another. *)
Theorem emailsUrl_params (subject fromEmail isRead isStarred : string) :
  emailsUrl (emailQuery subject fromEmail isRead isStarred)
  = "/api/emails?"
    ++ String.concat "&"
         (map (fun p => fst p ++ "=" ++ urlencode (snd p))
            (filter_params subject fromEmail isRead isStarred))
  /\ Forall (fun p => all_chars url_safe (urlencode (snd p)) = true)
       (filter_params subject fromEmail isRead isStarred).
Proof.
  split; [|apply List.Forall_forall; intros; apply urlencode_safe].
  unfold emailsUrl, emailQuery, filter_params. cbn [List.filter snd].
  destruct (non_empty subject), (non_empty fromEmail), (non_empty isRead),
    (non_empty isStarred); reflexivity.
Qed.

(** ** The clear-filter handler on a page that misses an element *)

(** The handler stops at an element that is missing: the bar is as it was. *)
Ltac gone :=
  unfold set_value, set_innerHTML, set_textContent, set_content, update, lift;
  unfold mbind, M_bind; cbn [fst page with_page ToString]; lookup_altered; reflexivity.

(** X14. The clear-filter handler returns when the four controls and
    the four regions are on the page, with or without the bar, and the
    bar, if there is one, is then at 0%; when one of the eight is
    missing it throws a TypeError, and the bar is as it was. *)
Theorem clearFilters_missing (w : World) :
  snd (clearFilters w)
  = (if forallb (on_page w) clear_targets then Ok tt else Throw TypeError)
  /\ el_width <$> page (attempt clearFilters w) !! "emailBar"
     = (if forallb (on_page w) clear_targets
        then (fun _ => "0%") <$> page w !! "emailBar"
        else el_width <$> page w !! "emailBar").
Proof.
  unfold clearFilters, clear_targets, attempt, on_page. cbn [forallb].
  rewrite run_getById_any.
  destruct (page w !! "subjectInput") eqn:E1; [rewrite run_set_value|split; [reflexivity|]].
  2: { gone. }
  rewrite run_getById_any. cbn [page with_page]. lookup_altered.
  destruct (page w !! "fromEmailInput") eqn:E2; [rewrite run_set_value|split; [reflexivity|]].
  2: { gone. }
  rewrite run_getById_any. cbn [page with_page]. lookup_altered.
  destruct (page w !! "isReadSelect") eqn:E3; [rewrite run_set_value|split; [reflexivity|]].
  2: { gone. }
  rewrite run_getById_any. cbn [page with_page]. lookup_altered.
  destruct (page w !! "isStarredSelect") eqn:E4; [rewrite run_set_value|split; [reflexivity|]].
  2: { gone. }
  rewrite run_getById_any. cbn [page with_page]. lookup_altered.
  destruct (page w !! "emailTable") eqn:E5; [rewrite run_set_innerHTML|split; [reflexivity|]].
  2: { gone. }
  rewrite run_getById_any. cbn [page with_page]. lookup_altered.
  destruct (page w !! "emailRaw") eqn:E6; [rewrite run_set_text|split; [reflexivity|]].
  2: { gone. }
  rewrite run_getById_any. cbn [page with_page]. lookup_altered.
  destruct (page w !! "emailCount") eqn:E7; [rewrite run_set_text|split; [reflexivity|]].
  2: { gone. }
  rewrite run_getById_any. cbn [page with_page]. lookup_altered.
  destruct (page w !! "emailTiming") eqn:E8; [rewrite run_set_text|split; [reflexivity|]].
  2: { gone. }
  cbn [andb]. unfold mbind, M_bind, getById. cbn [page with_page]. lookup_altered.
  destruct (page w !! "emailBar") eqn:E9.
  - rewrite run_progress. cbn [fst snd page with_page]. lookup_altered.
    rewrite E9. split; reflexivity.
  - cbn [fst snd progress mret M_ret page with_page]. lookup_altered.
    rewrite E9. split; reflexivity.
Qed.

Lemma clearFilters_missing_witness :
  forallb (on_page no_table_world) clear_targets = false
  /\ snd (clearFilters no_table_world) = Throw TypeError
  /\ el_width <$> page (attempt clearFilters no_table_world) !! "emailBar" = Some "".
Proof.
  destruct (clearFilters_missing no_table_world) as [H1 H2].
  split; [reflexivity|]. split; [exact H1 | exact H2].
Defined.

(** ** Clearing the filters, then running the query *)


Section Clicks.

Variable fetch : string -> option Response.
Variable JSON_parse : string -> Result JsVal.
Variable JSON_stringify : JsVal -> option string.
Variable toLocaleString : JsNum -> string.


End Clicks.


(** ** Reading escaped text back *)

Lemma unescape_escapeHtml t : unescape (escapeHtml t) = t.
Proof.
  unfold unescape, escapeHtml. induction t as [|c t IH]; [reflexivity|].
  cbn [flat_map_chars]. unfold entity at 1.
  case_char c "&"%char; [cbn; now rewrite IH|].
  case_char c "<"%char; [cbn; now rewrite IH|].
  case_char c ">"%char; [cbn; now rewrite IH|].
  case_char c "034"%char; [cbn; now rewrite IH|].
  case_char c "'"%char; [cbn; now rewrite IH|].
  cbn [String.append unescape_from]. unfold entity_at. cbn [startsWith].
  rewrite E. cbn [andb]. now rewrite IH.
Qed.

(** X16. [esc] loses nothing of a text: it returns for every text, and
    the text is read back from what it returns by replacing the five
    entities by their characters.  Two texts that differ are therefore
    escaped to markup that differs. *)
Theorem esc_reads_back (s : string) :
  exists e, esc (JStr s) = Ok e /\ unescape e = s.
Proof.
  exists (escapeHtml s). split; [apply esc_string | apply unescape_escapeHtml].
Qed.

(** ** Where markup goes *)

Lemma keeps_text_ret {A} (a : A) : keeps_text (mret a).
Proof. intros id w _ H. exact H. Qed.

Lemma keeps_text_lift {A} (r : Result A) : keeps_text (lift r).
Proof. intros id w _ H. exact H. Qed.

Lemma keeps_text_bind {A B} (m : M A) (k : A -> M B) (Q : A -> Prop) :
  keeps_text m -> (forall w a, snd (m w) = Ok a -> Q a) ->
  (forall a, Q a -> keeps_text (k a)) -> keeps_text (m ≫= k).
Proof.
  intros Hm HQ Hk id w Hid H. unfold mbind, M_bind.
  specialize (Hm id w Hid H). specialize (HQ w).
  destruct (m w) as [w1 [a|e]]; cbn [fst snd] in *; [|exact Hm].
  exact (Hk a (HQ a eq_refl) id w1 Hid Hm).
Qed.

Lemma keeps_text_seq {A B} (m : M A) (k : A -> M B) :
  keeps_text m -> (forall a, keeps_text (k a)) -> keeps_text (m ≫= k).
Proof. intros Hm Hk. apply (keeps_text_bind m k (fun _ => True)); auto. Qed.

Lemma keeps_text_getById i {B} (k : option string -> M B) :
  (forall el, el = None \/ el = Some i -> keeps_text (k el)) ->
  keeps_text (getById i ≫= k).
Proof.
  intros Hk. apply (keeps_text_bind _ k (fun el => el = None \/ el = Some i)).
  - intros id w _ H. exact H.
  - intros w a. unfold getById. cbn [snd]. intros [= <-].
    destruct (page w !! i); auto.
  - exact Hk.
Qed.

Lemma keeps_text_same {A} (m : M A) :
  (forall w, page (fst (m w)) = page w) -> keeps_text m.
Proof. intros Hm id w _ H html. rewrite Hm. apply H. Qed.

Lemma keeps_text_update el f : textual f -> keeps_text (update el f).
Proof.
  intros Hf id w _ H html. destruct el as [i|]; [|apply H].
  cbn [update fst page with_page]. destruct (decide (i = id)) as [->|Hne].
  - rewrite lookup_alter_eq. specialize (H html).
    destruct (page w !! id) as [e|]; [|discriminate]. cbn in *.
    intros [= Hc]. apply H. f_equal. now apply Hf.
  - rewrite lookup_alter_ne by assumption. apply H.
Qed.

Lemma keeps_text_table f : keeps_text (update (Some "emailTable") f).
Proof.
  intros id w Hid H html. cbn [update fst page with_page].
  rewrite lookup_alter_ne by congruence. apply H.
Qed.

Lemma keeps_text_set_textContent el v : keeps_text (set_textContent el v).
Proof.
  unfold set_textContent. apply keeps_text_seq; [apply keeps_text_lift|].
  intros s. apply keeps_text_update. intros e html. discriminate.
Qed.

Lemma keeps_text_set_value el s : keeps_text (set_value el s).
Proof. apply keeps_text_update. intros e html H. exact H. Qed.

Lemma keeps_text_progress el pct : keeps_text (progress el pct).
Proof.
  destruct el; [|apply keeps_text_ret].
  apply keeps_text_update. intros e html H. exact H.
Qed.

Lemma keeps_text_renderKV user : keeps_text (renderKV user).
Proof.
  unfold renderKV. cbv zeta.
  repeat first
    [ apply keeps_text_set_textContent
    | apply keeps_text_lift
    | apply keeps_text_getById; intros ? _
    | apply keeps_text_seq; [|intros ?] ].
Qed.

(** Steps of a handler that keep text where it is. *)
Ltac keep :=
  first
    [ apply keeps_text_set_textContent
    | apply keeps_text_set_value
    | apply keeps_text_progress
    | apply keeps_text_renderKV
    | apply keeps_text_lift
    | apply keeps_text_ret
    | apply keeps_text_same; reflexivity
    | apply keeps_text_getById; intros ? [-> | ->]
    | apply keeps_text_table
    | apply keeps_text_update; intros ? ?; discriminate
    | apply keeps_text_seq; [|intros ?] ].

Lemma keeps_text_clearFilters : keeps_text clearFilters.
Proof. unfold clearFilters, set_innerHTML, set_content. repeat keep. Qed.

Lemma keeps_text_emailsRequest : keeps_text emailsRequest.
Proof. unfold emailsRequest. repeat keep. Qed.

Section Markup.

Variable fetch : string -> option Response.
Variable JSON_parse : string -> Result JsVal.
Variable JSON_stringify : JsVal -> option string.
Variable toLocaleString : JsNum -> string.

Lemma keeps_text_fetchJSON url : keeps_text (fetchJSON fetch JSON_parse url).
Proof.
  apply keeps_text_same. intros w. unfold fetchJSON, request, mbind, M_bind.
  destruct (fetch url) as [r|]; [destruct (JSON_parse (body r))|]; reflexivity.
Qed.

Lemma keeps_text_loadUser : keeps_text (loadUser fetch JSON_parse JSON_stringify).
Proof.
  unfold loadUser. apply keeps_text_seq; [apply keeps_text_fetchJSON | intros data].
  repeat keep.
Qed.

Lemma keeps_text_loadPing : keeps_text (loadPing fetch JSON_parse JSON_stringify).
Proof.
  unfold loadPing.
  apply keeps_text_getById; intros ? _.
  apply keeps_text_seq; [apply keeps_text_progress | intros _].
  apply keeps_text_seq; [apply keeps_text_fetchJSON | intros data].
  repeat keep.
Qed.

Lemma keeps_text_loadEmails :
  keeps_text (loadEmails fetch JSON_parse JSON_stringify toLocaleString).
Proof.
  unfold loadEmails.
  apply keeps_text_seq; [apply keeps_text_emailsRequest | intros url].
  apply keeps_text_seq; [apply keeps_text_fetchJSON | intros data].
  unfold showEmails, renderPreviewTable, set_innerHTML, set_content. cbv zeta.
  repeat keep.
Qed.

(** X17. Whatever the backend sends, the script writes markup to the
    table region only: an element that showed text before [loadUser] or
    before a click on one of the three buttons shows text after it,
    unless it is the table region. *)
Theorem markup_in_table_only (id : string) (w : World) (h : Handler) :
  id <> "emailTable" -> shows_text id w ->
  shows_text id (attempt (loadUser fetch JSON_parse JSON_stringify) w)
  /\ shows_text id (attempt (handler fetch JSON_parse JSON_stringify toLocaleString h) w).
Proof.
  intros Hid H. split; [now apply keeps_text_loadUser|].
  destruct h; cbn [handler];
    [now apply keeps_text_loadEmails | now apply keeps_text_clearFilters
     | now apply keeps_text_loadPing].
Qed.

End Markup.

Lemma markup_in_table_only_witness :
  shows_text "emailRaw" demo_world
  /\ shows_text "emailRaw"
       (attempt (handler (server emails_body) Reference.JSON_parse Reference.JSON_stringify
                   Reference.toLocaleString OnLoadEmails) demo_world).
Proof.
  assert (shows_text "emailRaw" demo_world) as H by (intros html; discriminate).
  split; [exact H|].
  apply (markup_in_table_only (server emails_body) Reference.JSON_parse
           Reference.JSON_stringify Reference.toLocaleString "emailRaw" demo_world
           OnLoadEmails); [discriminate | exact H].
Defined.

(** ** Clearing twice *)

Lemma alter_is_Some (f : Element -> Element) j (m : gmap string Element) id :
  is_Some (m !! id) -> is_Some (alter f j m !! id).
Proof.
  intros [e He]. destruct (decide (j = id)) as [->|Hne].
  - rewrite lookup_alter_eq, He. eauto.
  - rewrite lookup_alter_ne by assumption. eauto.
Qed.

Lemma present_cleared w id : present w id -> present (cleared w) id.
Proof.
  intros H. unfold present. rewrite page_cleared. repeat apply alter_is_Some. exact H.
Qed.

(** X18. Clearing the filters twice is clearing them once: the second
    click on the clear control returns as well and leaves the page as
    the first left it. *)
Theorem clearFilters_twice (w : World) :
  Forall (present w) clear_ids ->
  exists w1 w2,
    clearFilters w = (w1, Ok tt) /\ clearFilters w1 = (w2, Ok tt) /\ page w2 = page w1.
Proof.
  intros H. exists (cleared w), (cleared (cleared w)).
  split; [now apply clearFilters_run|]. split.
  - apply clearFilters_run. eapply List.Forall_impl; [|exact H].
    intros id. apply present_cleared.
  - apply map_eq. intros id. rewrite (page_cleared (cleared w)), (page_cleared w).
    destruct (decide (id = "emailBar")) as [->|N1];
      [lookup_altered; now destruct (page w !! _)|].
    destruct (decide (id = "emailTiming")) as [->|N2];
      [lookup_altered; now destruct (page w !! _)|].
    destruct (decide (id = "emailCount")) as [->|N3];
      [lookup_altered; now destruct (page w !! _)|].
    destruct (decide (id = "emailRaw")) as [->|N4];
      [lookup_altered; now destruct (page w !! _)|].
    destruct (decide (id = "emailTable")) as [->|N5];
      [lookup_altered; now destruct (page w !! _)|].
    destruct (decide (id = "isStarredSelect")) as [->|N6];
      [lookup_altered; now destruct (page w !! _)|].
    destruct (decide (id = "isReadSelect")) as [->|N7];
      [lookup_altered; now destruct (page w !! _)|].
    destruct (decide (id = "fromEmailInput")) as [->|N8];
      [lookup_altered; now destruct (page w !! _)|].
    destruct (decide (id = "subjectInput")) as [->|N9];
      [lookup_altered; now destruct (page w !! _)|].
    now rewrite !lookup_alter_ne by congruence.
Qed.

Lemma clearFilters_twice_witness :
  Forall (present invoice_world) clear_ids
  /\ exists w1 w2,
       clearFilters invoice_world = (w1, Ok tt) /\ clearFilters w1 = (w2, Ok tt)
       /\ page w2 = page w1.
Proof.
  assert (Forall (present invoice_world) clear_ids) as H
    by (repeat constructor; vm_compute; eauto).
  split; [exact H | exact (clearFilters_twice invoice_world H)].
Defined.
